(** * Script-YT tray utility: the URL list and its operations

    Shallow embedding of [main_windows_strict.cpp].  The program keeps a list
    of URLs in a text file ([DOWNLOAD_LIST]); a hotkey appends the clipboard
    text to it ([AddLinkFromClipboard]) and another one runs the downloader on
    every stored line and truncates the file ([DownloadAll]).

    The list file is a sequence of bytes.  The program reads and writes it
    through wide file streams that it never imbues with a locale, so that
    the streams convert with the facet of the classic locale: a byte is read
    as the character of the same value, a character below 256 is written as
    the byte of that value, and a character from 256 on cannot be written,
    which puts the stream into its failed state.  The translation of line
    ends by the text mode of the C runtime lies below the model.

    The world also records whether the list file can be opened for input
    and for output, since the program silently goes on when a stream fails
    to open, and the trace of what the program does to the outside. *)

From Stdlib Require Import Strings.String Strings.Ascii Strings.Byte.
From Stdlib Require Import List NArith Bool Arith Lia.
Import ListNotations.

Local Open Scope N_scope.

(** ** Wide characters and strings *)

(** [wchar_t]: an unsigned 16-bit code unit on Windows. *)
Definition wchar := N.

(** [std::wstring]. *)
Definition wstring := list wchar.

(** A wide literal [L"..."] over ASCII characters. *)
Definition L (s : string) : wstring :=
  map N_of_ascii (list_ascii_of_string s).

(** [L'\n'] *)
Definition newline : wchar := 10.

(** [L'\0'], the terminator of a C wide string. *)
Definition NUL : wchar := 0.

(** [text.empty()] / [line.empty()] *)
Definition empty (s : wstring) : bool :=
  match s with
  | [] => true
  | _ :: _ => false
  end.

(** [std::wstring text(ptr)]: the characters of the buffer up to, and
    without, the first [L'\0']. *)
Fixpoint wstring_of_cstr (buf : list wchar) : wstring :=
  match buf with
  | [] => []
  | c :: rest => if c =? NUL then [] else c :: wstring_of_cstr rest
  end.

(** [s.c_str()] as the callee reads it: the characters of [s] up to, and
    without, its first [L'\0']. *)
Definition c_str (s : wstring) : wstring := wstring_of_cstr (s ++ [NUL]).

(** ** Characters and bytes *)

(** [codecvt<wchar_t, char, mbstate_t>::out] of the classic locale on one
    character: the byte of the same value; [None] is a conversion error. *)
Definition narrow (c : wchar) : option byte := Byte.of_N c.

(** [codecvt<wchar_t, char, mbstate_t>::in] of the classic locale: every
    byte is the character of the same value. *)
Definition widen (bs : list byte) : wstring := map Byte.to_N bs.

(** The bytes of the characters of [s] that have one. *)
Fixpoint bytes_of (s : wstring) : list byte :=
  match s with
  | [] => []
  | c :: rest =>
      match narrow c with
      | Some b => b :: bytes_of rest
      | None => bytes_of rest
      end
  end.

(** Every character of [s] can be written. *)
Definition convertible (s : wstring) : bool :=
  forallb (fun c => c <? 256) s.

(** The characters of [s] before the first one that cannot be written. *)
Fixpoint convertible_prefix (s : wstring) : wstring :=
  match s with
  | [] => []
  | c :: rest => if c <? 256 then c :: convertible_prefix rest else []
  end.

(** ** The environment *)

(** What the clipboard calls of [AddLinkFromClipboard] meet. *)
Inductive Clipboard : Type :=
| ClipboardBusy                      (* OpenClipboard(NULL) fails *)
| ClipboardNoText                    (* GetClipboardData(CF_UNICODETEXT) is NULL *)
| ClipboardLockFailed                (* GlobalLock(h) is NULL *)
| ClipboardData (buf : list wchar).  (* the locked, NUL-terminated block *)

(** Constants of the Windows SDK headers used by the program. *)
Definition SW_HIDE : N := 0.
Definition SW_SHOWNORMAL : N := 1.
Definition WM_DESTROY : N := 2.
Definition WM_COMMAND : N := 273.     (* 0x0111 *)
Definition WM_HOTKEY : N := 786.      (* 0x0312 *)
Definition WM_RBUTTONUP : N := 517.   (* 0x0205 *)
Definition WM_APP : N := 32768.       (* 0x8000 *)

(** The [#define]s and hotkey identifiers of the program. *)
Definition WM_TRAY : N := WM_APP + 1.
Definition ID_DOWNLOAD : N := 200.
Definition ID_OPEN_LIST : N := 201.
Definition ID_OPEN_FOLDER : N := 202.
Definition ID_CHANGE_HOTKEY : N := 203.
Definition ID_INFO : N := 204.
Definition ID_EXIT : N := 205.
Definition HOTKEY_ADD : N := 1.
Definition HOTKEY_DOWNLOAD : N := 2.

(** Actions of the program that are visible outside of it, in the order in
    which they happen. *)
Inductive Event : Type :=
| ShellExecute (file : wstring) (params : option wstring) (show : N)
    (* ShellExecuteW(NULL, L"open", file, params, NULL, show) *)
| FileAppended (text : wstring)       (* characters put at the end of the list file *)
| FileTruncated                       (* the list file opened with ios::trunc *)
| MenuShown                           (* TrackPopupMenu *)
| HotkeysUnregistered
| TrayIconRemoved
| PostQuitMessage (code : N)
| DefWindowProc (msg wParam lParam : N).

Record World : Type := mkWorld {
  clipboard : Clipboard;
  list_file_bytes : option (list byte);
                               (* bytes of DOWNLOAD_LIST; None: no such file *)
  can_read  : bool;            (* an existing list file can be opened for input *)
  can_write : bool;            (* the list file can be opened (or created) for output *)
  ROOT_DIR  : wstring;         (* directory of the executable *)
  flushed_before_error : wstring -> nat;
                               (* the C++ runtime: of a text that it fails to
                                  convert, how many characters it has handed to
                                  the file before the error (none when it
                                  converts a whole buffer at once, all before
                                  the failing one when it converts character by
                                  character) *)
  trace     : list Event       (* what the program has done so far, oldest first *)
}.

(** The characters of the list file as an input stream converts them;
    [None] when there is no such file. *)
Definition list_file (w : World) : option wstring :=
  option_map widen (list_file_bytes w).

(** The world in which the list file holds the characters [f], or does not
    exist. *)
Definition set_list_file (w : World) (f : option wstring) : World :=
  mkWorld (clipboard w) (option_map bytes_of f) (can_read w) (can_write w)
          (ROOT_DIR w) (flushed_before_error w) (trace w).

Definition emit (w : World) (e : Event) : World :=
  mkWorld (clipboard w) (list_file_bytes w) (can_read w) (can_write w)
          (ROOT_DIR w) (flushed_before_error w) (trace w ++ [e]).

(** The characters of the list file; a file that does not exist has none. *)
Definition file_content (w : World) : wstring :=
  match list_file w with
  | Some s => s
  | None => []
  end.

Definition SYSTEM_DIR (w : World) : wstring := ROOT_DIR w ++ L "\system".
Definition DOWNLOAD_LIST (w : World) : wstring := SYSTEM_DIR w ++ L "\download-list.txt".
Definition DOWNLOAD_FOLDER (w : World) : wstring := ROOT_DIR w ++ L "\Downloads".

(** ** File streams *)

(** [std::wifstream f(DOWNLOAD_LIST)]: the characters the stream will deliver,
    or [None] when the file cannot be opened (the stream is then in a failed
    state and every extraction fails). *)
Definition wifstream_open (w : World) : option wstring :=
  if can_read w then list_file w else None.

(** The characters of [s] before its first newline, and those after it. *)
Fixpoint until_newline (s : wstring) : wstring * wstring :=
  match s with
  | [] => ([], [])
  | c :: rest =>
      if c =? newline then ([], rest)
      else let (line, rest') := until_newline rest in (c :: line, rest')
  end.

(** [std::getline(f, line)] on a stream with the characters [s] left: [None]
    when no character can be extracted (end of file: the call sets failbit
    and the stream tests false); otherwise the line, without its delimiter,
    and the characters left in the stream. *)
Definition getline (s : wstring) : option (wstring * wstring) :=
  match s with
  | [] => None
  | _ :: _ => Some (until_newline s)
  end.

(** The loop of [ReadList]:
    [while (std::getline(f, line)) if (!line.empty()) res.push_back(line);] *)
Fixpoint read_loop (fuel : nat) (f : wstring) (res : list wstring) : list wstring :=
  match fuel with
  | O => res
  | S fuel' =>
      match getline f with
      | None => res
      | Some (line, f') =>
          read_loop fuel' f' (if empty line then res else res ++ [line])
      end
  end.

(** [ReadList].  Every successful [getline] takes at least one character out
    of the stream, so the loop runs at most [length f] times before [getline]
    fails (see [read_loop_enough_fuel]). *)
Definition ReadList (w : World) : list wstring :=
  match wifstream_open w with
  | None => []
  | Some f => read_loop (length f) f []
  end.

(** [ClearList]: [std::wofstream f(DOWNLOAD_LIST, std::ios::trunc);] *)
Definition ClearList (w : World) : World :=
  if can_write w then emit (set_list_file w (Some [])) FileTruncated else w.

(** [RunDownload]; [ShellExecuteW] receives the parameters as a C string. *)
Definition RunDownload (url : wstring) (w : World) : World :=
  let cmd := L "yt-dlp " ++ url in
  emit w (ShellExecute (L "cmd.exe") (Some (c_str (L "/c " ++ cmd))) SW_HIDE).

(** [for (const auto &u : urls) RunDownload(u);] *)
Fixpoint run_downloads (urls : list wstring) (w : World) : World :=
  match urls with
  | [] => w
  | u :: rest => run_downloads rest (RunDownload u w)
  end.

(** [DownloadAll] *)
Definition DownloadAll (w : World) : World :=
  let urls := ReadList w in
  ClearList (run_downloads urls w).

(** [file << text << L"\n"] on an open output stream: the characters that
    reach the file.  When every character of the text can be converted
    these are the text and the newline.  Otherwise the insertion of the text
    fails, the stream is in its failed state and the newline is not
    inserted; of the characters before the failing one the file gets as
    many as the runtime had handed over before the error. *)
Definition inserted (w : World) (text : wstring) : wstring :=
  if convertible text then text ++ [newline]
  else firstn (flushed_before_error w text) (convertible_prefix text).

(** [AddLinkFromClipboard] *)
Definition AddLinkFromClipboard (w : World) : World :=
  match clipboard w with
  | ClipboardBusy => w
  | ClipboardNoText => w
  | ClipboardLockFailed => w
  | ClipboardData buf =>
      let text := wstring_of_cstr buf in
      if empty text then w
      else
        (* std::wofstream file(DOWNLOAD_LIST, std::ios::app); *)
        if can_write w then
          (* file << text << L"\n"; *)
          let out := inserted w text in
          emit (set_list_file w (Some (file_content w ++ out))) (FileAppended out)
        else w
  end.

(** [ShowInfo], [OpenDownloads], [OpenList]; [ShellExecuteW] receives the
    path as a C string. *)
Definition ShowInfo (w : World) : World :=
  let info := SYSTEM_DIR w ++ L "\info.txt" in
  emit w (ShellExecute (c_str info) None SW_SHOWNORMAL).

Definition OpenDownloads (w : World) : World :=
  emit w (ShellExecute (c_str (DOWNLOAD_FOLDER w)) None SW_SHOWNORMAL).

Definition OpenList (w : World) : World :=
  emit w (ShellExecute (c_str (DOWNLOAD_LIST w)) None SW_SHOWNORMAL).

(** [LOWORD(wParam)] *)
Definition LOWORD (x : N) : N := N.land x 65535.

(** [WndProc]: the window procedure, one message at a time. *)
Definition WndProc (msg wParam lParam : N) (w : World) : World :=
  if msg =? WM_HOTKEY then
    if wParam =? HOTKEY_ADD then AddLinkFromClipboard w
    else if wParam =? HOTKEY_DOWNLOAD then DownloadAll w
    else w
  else if msg =? WM_COMMAND then
    let id := LOWORD wParam in
    if id =? ID_DOWNLOAD then DownloadAll w
    else if id =? ID_OPEN_LIST then OpenList w
    else if id =? ID_OPEN_FOLDER then OpenDownloads w
    else if id =? ID_INFO then ShowInfo w
    else if id =? ID_EXIT then emit w (PostQuitMessage 0)
    else w
  else if msg =? WM_TRAY then
    if lParam =? WM_RBUTTONUP then emit w MenuShown else w
  else if msg =? WM_DESTROY then
    emit (emit (emit w HotkeysUnregistered) TrayIconRemoved) (PostQuitMessage 0)
  else emit w (DefWindowProc msg wParam lParam).

(** The text [AddLinkFromClipboard] obtains from the clipboard, when it
    obtains one. *)
Definition clipboard_text (w : World) : option wstring :=
  match clipboard w with
  | ClipboardData buf => Some (wstring_of_cstr buf)
  | _ => None
  end.

(** A window message as [DispatchMessageW] hands it to [WndProc]. *)
Record Message : Type := mkMessage {
  msg_id : N;
  msg_wParam : N;
  msg_lParam : N
}.

(** ** Lines of a character sequence *)

Definition nonempty (s : wstring) : bool := negb (empty s).

(** The pieces of [s] between its newline characters (there is always one
    more piece than there are newlines; pieces may be empty). *)
Fixpoint segments (s : wstring) : list wstring :=
  match s with
  | [] => [[]]
  | c :: rest =>
      if c =? newline then [] :: segments rest
      else match segments rest with
           | seg :: segs => (c :: seg) :: segs
           | [] => [[c]]
           end
  end.

(** The non-empty pieces of [s], in order. *)
Definition nonempty_lines (s : wstring) : list wstring :=
  filter nonempty (segments s).

(** [s] has no newline character. *)
Definition no_newline (s : wstring) : bool :=
  forallb (fun c => negb (c =? newline)) s.

(** [s] is empty or its last character is a newline: every line of it has
    its terminator. *)
Fixpoint terminated (s : wstring) : bool :=
  match s with
  | [] => true
  | c :: rest =>
      match rest with
      | [] => c =? newline
      | _ :: _ => terminated rest
      end
  end.

(** The characters an input stream on the list file delivers: those of the
    file, or none when the file cannot be opened. *)
Definition stream_content (w : World) : wstring :=
  match wifstream_open w with
  | Some f => f
  | None => []
  end.

(** ** Observations on the trace *)

(** The [ShellExecuteW] call of [RunDownload] for one URL. *)
Definition download_command (url : wstring) : Event :=
  ShellExecute (L "cmd.exe") (Some (c_str (L "/c " ++ (L "yt-dlp " ++ url)))) SW_HIDE.

(** What [ClearList] adds to the trace. *)
Definition clear_events (w : World) : list Event :=
  if can_write w then [FileTruncated] else [].

(** The events [w'] has beyond those of [w]. *)
Definition added_events (w w' : World) : list Event :=
  skipn (length (trace w)) (trace w').

(** ** UTF-16 *)

Module Encoding.








End Encoding.


(** ** Sample worlds *)

(** An idle world: nothing on the clipboard, the given list file, every
    file operation permitted. *)
(** A runtime that converts a whole buffer at once: a text that fails to
    convert leaves nothing in the file. *)
Definition buffered : wstring -> nat := fun _ => O.

(** A runtime that converts character by character: of a text that fails
    to convert, the characters before the failing one are in the file. *)
Definition unbuffered : wstring -> nat := fun text => length text.

Definition world_with_file (f : option wstring) : World :=
  mkWorld ClipboardNoText (option_map bytes_of f) true true (L "C:\yt") buffered [].

(** The clipboard holds the given text, as a NUL-terminated block. *)
Definition world_with_clipboard (text : wstring) (f : option wstring)
                                (writable : bool) : World :=
  mkWorld (ClipboardData (text ++ [NUL])) (option_map bytes_of f) true writable
          (L "C:\yt") buffered [].

(** The list file holds the lines [a] and [b] and a blank line. *)
Definition two_url_world : World :=
  world_with_file (Some (L "a" ++ [newline; newline] ++ L "b")).

(** The list file holds one URL and is write-protected. *)
Definition read_only_world : World :=
  mkWorld ClipboardNoText (Some (bytes_of (L "a" ++ [newline]))) true false
          (L "C:\yt") buffered [].

(** The list file holds one URL; it can be opened for output and not for
    input. *)
Definition write_only_world : World :=
  mkWorld ClipboardNoText (Some (bytes_of (L "a" ++ [newline]))) false true
          (L "C:\yt") buffered [].

(** The clipboard holds the one character U+0416, which has no byte. *)
Definition wide_text_world : World :=
  world_with_clipboard [1046] (Some (L "x" ++ [newline])) true.

(** Text on the clipboard, a list file that cannot be opened for output. *)
Definition unwritable_add_world : World :=
  world_with_clipboard (L "a") (Some (L "x" ++ [newline])) false.

(** A URL on the clipboard, a list file with one line. *)
Definition add_url_world : World :=
  world_with_clipboard (L "https://a/b") (Some (L "x" ++ [newline])) true.

(** The clipboard cannot give a text. *)
Definition no_text_world : World := world_with_file (Some (L "x" ++ [newline])).

(** The clipboard holds the empty text. *)
Definition empty_text_world : World :=
  world_with_clipboard [] (Some (L "x" ++ [newline])) true.

(** The URL [a] is stored and on the clipboard, the file is write-protected. *)
Definition duplicate_read_only_world : World :=
  world_with_clipboard (L "a") (Some (L "a" ++ [newline])) false.

(** The URL [a] is stored, without a newline after it, and on the clipboard. *)
Definition duplicate_unterminated_world : World :=
  world_with_clipboard (L "a") (Some (L "a")) true.

(** The URL [u] is stored, followed by [v], and on the clipboard. *)
Definition duplicate_world : World :=
  world_with_clipboard (L "u") (Some (L "u" ++ [newline] ++ L "v" ++ [newline])) true.

(** The last stored line, [a], has no newline after it. *)
Definition unterminated_world : World :=
  world_with_clipboard (L "b") (Some (L "x" ++ [newline] ++ L "a")) true.

(** Every stored line has its newline. *)
Definition terminated_world : World :=
  world_with_clipboard (L "b") (Some (L "x" ++ [newline] ++ L "a" ++ [newline])) true.

(** Two lines of text on the clipboard. *)
Definition two_line_text : wstring := L "a" ++ [newline] ++ L "b".

Definition multiline_world : World :=
  world_with_clipboard two_line_text (Some (L "x" ++ [newline])) true.


(** ** Start-up, menu and message loop *)

(** [std::wstring::find_last_of(set)]: the position of the last character
    of [s] that occurs in [set]; [None] stands for [npos]. *)
Fixpoint find_last_of (s set : wstring) : option nat :=
  match s with
  | [] => None
  | c :: rest =>
      match find_last_of rest set with
      | Some pos => Some (S pos)
      | None => if existsb (N.eqb c) set then Some O else None
      end
  end.

(** The separators [GetModuleDir] looks for: [L"\\/"]. *)
Definition path_separators : wstring := L "\/".

(** [GetModuleDir], on the buffer that [GetModuleFileNameW] has filled:
    the path up to its last separator ([path.resize(pos)]), or the whole
    path when it has none. *)
Definition GetModuleDir (buf : list wchar) : wstring :=
  let path := wstring_of_cstr buf in
  match find_last_of path path_separators with
  | Some pos => firstn pos path
  | None => path
  end.


(** The entries [ShowMenu] puts into the popup menu with [AppendMenuW]:
    command identifier and label, in order. *)
Definition menu_items : list (N * wstring) :=
  [ (ID_DOWNLOAD, [0x421; 0x41A; 0x410; 0x427; 0x410; 0x422; 0x42C]);
    (ID_OPEN_LIST, [0x421; 0x41F; 0x418; 0x421; 0x41E; 0x41A; 0x20;
                    0x417; 0x410; 0x413; 0x420; 0x423; 0x417; 0x41E; 0x41A]);
    (ID_OPEN_FOLDER, [0x41F; 0x410; 0x41F; 0x41A; 0x410; 0x20;
                      0x417; 0x410; 0x413; 0x420; 0x423; 0x417; 0x41A; 0x418]);
    (ID_INFO, L "INFO");
    (ID_EXIT, [0x412; 0x42B; 0x425; 0x41E; 0x414]) ].

(** The command identifiers of the menu. *)
Definition menu_ids : list N := map fst menu_items.

(** [s] has no path separator. *)
Definition no_separator (s : wstring) : bool :=
  forallb (fun c => negb (existsb (N.eqb c) path_separators)) s.

(** ** The user and the program *)

(** What happens around the program between two messages: the clipboard
    gets another content. *)
Definition set_clipboard (w : World) (c : Clipboard) : World :=
  mkWorld c (list_file_bytes w) (can_read w) (can_write w) (ROOT_DIR w)
          (flushed_before_error w) (trace w).

(** One thing that happens in a session: the clipboard changes, or the
    message loop hands a message to [WndProc]. *)
Inductive Input : Type :=
| ClipboardChanged (c : Clipboard)
| Dispatched (m : Message).

Definition step (i : Input) (w : World) : World :=
  match i with
  | ClipboardChanged c => set_clipboard w c
  | Dispatched m => WndProc (msg_id m) (msg_wParam m) (msg_lParam m) w
  end.

(** A session: the inputs in the order in which they happen. *)
Fixpoint run (inputs : list Input) (w : World) : World :=
  match inputs with
  | [] => w
  | i :: rest => run rest (step i w)
  end.

(** The clipboard block of a text: its characters and the terminator. *)
Definition clipboard_of (text : wstring) : Clipboard :=
  ClipboardData (text ++ [NUL]).

(** The user copies [text] and presses the add hotkey. *)
Definition copy_and_add (text : wstring) : list Input :=
  [ClipboardChanged (clipboard_of text);
   Dispatched (mkMessage WM_HOTKEY HOTKEY_ADD 0)].

(** The user presses the download hotkey. *)
Definition press_download : list Input :=
  [Dispatched (mkMessage WM_HOTKEY HOTKEY_DOWNLOAD 0)].

(** A text file made of the given lines, each with its newline. *)
Definition unlines (ls : list wstring) : wstring :=
  flat_map (fun l => l ++ [newline]) ls.

(** [s] has no NUL character. *)
Definition no_NUL (s : wstring) : bool :=
  forallb (fun c => negb (c =? NUL)) s.

(** [text] can stand in the list as one entry and on the clipboard as it
    is: it is not empty, has neither a newline nor a NUL, and every
    character of it can be written. *)
Definition plain_entry (text : wstring) : bool :=
  nonempty text && no_newline text && no_NUL text && convertible text.

(** The text that [AddLinkFromClipboard] would find on the clipboard, if
    any, can be written. *)
Definition clipboard_convertible (c : Clipboard) : bool :=
  match c with
  | ClipboardData buf => convertible (wstring_of_cstr buf)
  | _ => true
  end.

Definition input_convertible (i : Input) : bool :=
  match i with
  | ClipboardChanged c => clipboard_convertible c
  | Dispatched _ => true
  end.

(** ** More sample data *)


(** A module file name without any separator. *)
Definition bare_module_buf : list wchar := L "tray.exe" ++ [NUL].

(** The list file holds the URLs [u] and [v], nothing on the clipboard. *)
Definition stored_world : World :=
  world_with_file (Some (unlines [L "u"; L "v"])).

(** As [stored_world], with a write-protected list file. *)
Definition stored_read_only_world : World :=
  mkWorld ClipboardNoText (Some (bytes_of (unlines [L "u"; L "v"]))) true false
          (L "C:\yt") buffered [].

(** The clipboard block holds more characters after its terminator. *)
Definition trailing_block_world : World :=
  mkWorld (ClipboardData (L "u" ++ [NUL] ++ L "junk" ++ [NUL]))
          (Some (bytes_of (L "x" ++ [newline]))) true true (L "C:\yt") buffered [].

(** * Properties *)

Example ReadList_sample : ReadList two_url_world = [L "a"; L "b"].
Proof. reflexivity. Qed.

Example wstring_of_cstr_sample :
  wstring_of_cstr (L "ab" ++ [NUL] ++ L "cd" ++ [NUL]) = L "ab".
Proof. reflexivity. Qed.

(** ** [getline] and the loop of [ReadList] *)

Section Lines.

Implicit Types (s f line : wstring) (res : list wstring).

Lemma until_newline_shorter s :
  (length (snd (until_newline s)) <= length s)%nat.
Proof.
  induction s as [|c rest IH]; simpl; [lia|].
  destruct (c =? newline); simpl; [lia|].
  destruct (until_newline rest) as [line rest']; simpl in *; lia.
Qed.

Lemma getline_until_newline s line f :
  getline s = Some (line, f) -> until_newline s = (line, f).
Proof.
  destruct s; [discriminate|]. intros H. injection H as H. exact H.
Qed.

(** A successful [getline] takes at least one character. *)
Lemma getline_consumes s line f :
  getline s = Some (line, f) -> (length f < length s)%nat.
Proof.
  intros H. pose proof (until_newline_shorter s) as Hlen.
  rewrite (getline_until_newline _ _ _ H) in Hlen.
  destruct s as [|c rest]; [discriminate|].
  apply getline_until_newline in H. simpl in H.
  destruct (c =? newline).
  - injection H as _ <-. simpl; lia.
  - pose proof (until_newline_shorter rest) as Hrest.
    destruct (until_newline rest) as [l r]. injection H as _ <-.
    simpl in *; lia.
Qed.

Lemma segments_not_nil s : segments s <> [].
Proof.
  destruct s as [|c rest]; simpl; [discriminate|].
  destruct (c =? newline); [discriminate|].
  destruct (segments rest); discriminate.
Qed.

(** One [getline] takes the first piece; the other pieces are those of
    what it leaves, unless the end of the stream was reached without a
    newline. *)
Lemma segments_until_newline s :
  segments s =
  fst (until_newline s)
    :: (if no_newline s then [] else segments (snd (until_newline s))).
Proof.
  induction s as [|c rest IH]; simpl; [reflexivity|].
  destruct (c =? newline) eqn:Hc; simpl; [reflexivity|].
  rewrite IH. destruct (until_newline rest) as [l r]; reflexivity.
Qed.

Lemma no_newline_rest s :
  no_newline s = true -> snd (until_newline s) = [].
Proof.
  induction s as [|c rest IH]; simpl; [reflexivity|].
  destruct (c =? newline); simpl; [discriminate|].
  intros H. specialize (IH H).
  destruct (until_newline rest) as [l r]; simpl in *; assumption.
Qed.

Lemma nonempty_lines_getline s line f :
  getline s = Some (line, f) ->
  nonempty_lines s = filter nonempty [line] ++ nonempty_lines f.
Proof.
  intros H. apply getline_until_newline in H.
  unfold nonempty_lines. rewrite segments_until_newline, H. simpl fst; simpl snd.
  destruct (no_newline s) eqn:Hn.
  - apply no_newline_rest in Hn. rewrite H in Hn; simpl in Hn; subst f.
    simpl. destruct (nonempty line); reflexivity.
  - simpl. destruct (nonempty line); reflexivity.
Qed.

(** With at least [length f] iterations allowed the loop ends because
    [getline] fails, and it has collected the non-empty lines. *)
Lemma read_loop_nonempty_lines fuel : forall f res,
  (length f <= fuel)%nat ->
  read_loop fuel f res = res ++ nonempty_lines f.
Proof.
  induction fuel as [|fuel IH]; intros f res Hlen.
  - destruct f; [|simpl in Hlen; lia].
    simpl. now rewrite app_nil_r.
  - simpl. destruct (getline f) as [[line f']|] eqn:Hg.
    + pose proof (getline_consumes _ _ _ Hg) as Hlt.
      rewrite IH by lia.
      rewrite (nonempty_lines_getline _ _ _ Hg).
      unfold nonempty. destruct line; simpl.
      * reflexivity.
      * now rewrite <- app_assoc.
    + destruct f; [|discriminate]. simpl. now rewrite app_nil_r.
Qed.

(** The loop is total: more iterations than [length f] change nothing. *)
Lemma read_loop_enough_fuel fuel f res :
  (length f <= fuel)%nat ->
  read_loop fuel f res = read_loop (length f) f res.
Proof.
  intros H. rewrite !read_loop_nonempty_lines by lia. reflexivity.
Qed.

Lemma segments_app_newline s : forall f,
  segments (s ++ newline :: f) = segments s ++ segments f.
Proof.
  induction s as [|c rest IH]; intros f; simpl.
  - reflexivity.
  - destruct (c =? newline).
    + now rewrite IH.
    + rewrite IH. pose proof (segments_not_nil rest) as Hne.
      destruct (segments rest); [contradiction|reflexivity].
Qed.

Lemma terminated_inv s :
  terminated s = true -> s = [] \/ exists s', s = s' ++ [newline].
Proof.
  induction s as [|c rest IH]; [now left|].
  simpl. destruct rest as [|d rest'].
  - intros H. apply N.eqb_eq in H. subst c. right. now exists [].
  - intros H. destruct (IH H) as [Hnil|[s' Hs']]; [discriminate|].
    right. exists (c :: s'). simpl. now rewrite Hs'.
Qed.

Lemma terminated_app_newline s : terminated (s ++ [newline]) = true.
Proof.
  induction s as [|c rest IH]; [reflexivity|].
  simpl. destruct (rest ++ [newline]) eqn:E; [|exact IH].
  destruct rest; discriminate.
Qed.

(** After a terminated prefix the lines of what follows do not depend on
    the prefix. *)
Lemma nonempty_lines_app s f :
  terminated s = true ->
  nonempty_lines (s ++ f) = nonempty_lines s ++ nonempty_lines f.
Proof.
  intros H. destruct (terminated_inv _ H) as [->|[s' ->]]; [reflexivity|].
  unfold nonempty_lines.
  rewrite <- app_assoc. simpl.
  rewrite segments_app_newline.
  replace (s' ++ [newline]) with (s' ++ newline :: []) by reflexivity.
  rewrite segments_app_newline. simpl.
  rewrite !filter_app. simpl. now rewrite app_nil_r.
Qed.

Lemma nonempty_lines_newline s :
  nonempty_lines (s ++ [newline]) = nonempty_lines s.
Proof.
  unfold nonempty_lines.
  replace (s ++ [newline]) with (s ++ newline :: []) by reflexivity.
  rewrite segments_app_newline, filter_app. simpl. now rewrite app_nil_r.
Qed.

Lemma segments_no_newline s :
  no_newline s = true -> segments s = [s].
Proof.
  induction s as [|c rest IH]; simpl; [reflexivity|].
  destruct (c =? newline); simpl; [discriminate|].
  intros H. now rewrite (IH H).
Qed.

Lemma nonempty_lines_single s :
  s <> [] -> no_newline s = true -> nonempty_lines s = [s].
Proof.
  intros Hne Hn. unfold nonempty_lines.
  rewrite (segments_no_newline _ Hn). simpl.
  destruct s; [contradiction|reflexivity].
Qed.

(** No piece contains a newline. *)
Lemma segments_pieces s :
  Forall (fun seg => no_newline seg = true) (segments s).
Proof.
  induction s as [|c rest IH]; simpl.
  - constructor; [reflexivity|constructor].
  - destruct (c =? newline) eqn:Hc.
    + constructor; [reflexivity|exact IH].
    + destruct (segments rest) as [|seg segs].
      * constructor; [simpl; now rewrite Hc|constructor].
      * inversion IH; subst. constructor; [simpl; now rewrite Hc|assumption].
Qed.

Lemma nonempty_lines_spec s line :
  In line (nonempty_lines s) -> line <> [] /\ no_newline line = true.
Proof.
  unfold nonempty_lines. intros H. apply filter_In in H as [Hin Hne].
  split.
  - intros ->. discriminate.
  - pose proof (segments_pieces s) as Hall.
    rewrite Forall_forall in Hall. now apply Hall.
Qed.

End Lines.

(** ** Characters and bytes *)

Section Conversion.

Implicit Types (s a text : wstring) (bs : list byte) (c : wchar).

Lemma narrow_below c :
  (c <? 256) = true -> exists b, narrow c = Some b /\ Byte.to_N b = c.
Proof.
  intros Hc. apply N.ltb_lt in Hc. unfold narrow.
  destruct (Byte.of_N c) as [b|] eqn:Hb.
  - exists b. split; [reflexivity|now apply Byte.to_of_N].
  - apply Byte.of_N_None_iff in Hb. lia.
Qed.


Lemma byte_below (b : byte) : (Byte.to_N b <? 256) = true.
Proof. apply N.ltb_lt. pose proof (Byte.to_N_bounded b). lia. Qed.

(** What is written and read back is what was written. *)
Lemma widen_bytes_of s : convertible s = true -> widen (bytes_of s) = s.
Proof.
  induction s as [|c rest IH]; simpl; [reflexivity|].
  intros H. apply andb_true_iff in H as [Hc H].
  destruct (narrow_below c Hc) as (b & -> & Hb).
  simpl. now rewrite Hb, IH.
Qed.


Lemma bytes_of_app a (a' : wstring) : bytes_of (a ++ a') = bytes_of a ++ bytes_of a'.
Proof.
  induction a as [|c rest IH]; simpl; [reflexivity|].
  destruct (narrow c); simpl; now rewrite IH.
Qed.

Lemma widen_app (bs bs' : list byte) : widen (bs ++ bs') = widen bs ++ widen bs'.
Proof. apply map_app. Qed.

Lemma convertible_widen bs : convertible (widen bs) = true.
Proof.
  induction bs as [|b rest IH]; simpl; [reflexivity|].
  now rewrite byte_below, IH.
Qed.

Lemma convertible_app a (a' : wstring) :
  convertible (a ++ a') = convertible a && convertible a'.
Proof. apply forallb_app. Qed.

Lemma convertible_prefix_convertible s : convertible (convertible_prefix s) = true.
Proof.
  induction s as [|c rest IH]; simpl; [reflexivity|].
  destruct (c <? 256) eqn:Hc; simpl; [now rewrite Hc|reflexivity].
Qed.

Lemma convertible_firstn (n : nat) : forall s,
  convertible s = true -> convertible (firstn n s) = true.
Proof.
  induction n as [|n IH]; intros s H; [reflexivity|].
  destruct s as [|c rest]; [reflexivity|]. simpl in *.
  apply andb_true_iff in H as [Hc H]. now rewrite Hc, IH.
Qed.

Lemma convertible_In s c : convertible s = true -> In c s -> c < 256.
Proof.
  unfold convertible. intros H Hin. rewrite forallb_forall in H.
  now apply N.ltb_lt, H.
Qed.

Lemma In_convertible s : (forall c, In c s -> c < 256) -> convertible s = true.
Proof.
  intros H. apply forallb_forall. intros c Hin. now apply N.ltb_lt, H.
Qed.

Lemma c_str_no_NUL s : no_NUL s = true -> c_str s = s.
Proof.
  unfold c_str. induction s as [|c rest IH]; simpl; [reflexivity|].
  intros H. apply andb_true_iff in H as [Hc H].
  destruct (c =? NUL); [discriminate|]. now rewrite IH.
Qed.

Lemma no_NUL_app a (a' : wstring) : no_NUL (a ++ a') = no_NUL a && no_NUL a'.
Proof. apply forallb_app. Qed.

End Conversion.

(** ** The operations *)

(** Opens the input stream of a [ReadList] whose world has a known
    [can_read]. *)
Ltac open_stream :=
  unfold wifstream_open; simpl;
  repeat match goal with
         | H : can_read _ = _ |- _ => rewrite H
         end;
  try reflexivity.

Section Operations.

Implicit Types (w : World) (url text : wstring).

Lemma ReadList_nonempty_lines w f :
  wifstream_open w = Some f -> ReadList w = nonempty_lines f.
Proof.
  unfold ReadList. intros ->.
  now rewrite read_loop_nonempty_lines by lia.
Qed.

Lemma ReadList_unopened w :
  wifstream_open w = None -> ReadList w = [].
Proof. unfold ReadList. now intros ->. Qed.

Lemma ReadList_stream_content w :
  ReadList w = nonempty_lines (stream_content w).
Proof.
  unfold stream_content.
  destruct (wifstream_open w) as [f|] eqn:Hf.
  - now apply ReadList_nonempty_lines.
  - now apply ReadList_unopened.
Qed.

Lemma ReadList_entries w url :
  In url (ReadList w) -> url <> [] /\ no_newline url = true.
Proof.
  rewrite ReadList_stream_content. apply nonempty_lines_spec.
Qed.

Lemma ReadList_In_can_read w url :
  In url (ReadList w) -> can_read w = true.
Proof.
  unfold ReadList, wifstream_open.
  destruct (can_read w); [reflexivity|intros []].
Qed.

Lemma ReadList_emit w e : ReadList (emit w e) = ReadList w.
Proof. reflexivity. Qed.

Lemma run_downloads_trace urls : forall w,
  trace (run_downloads urls w) = trace w ++ map download_command urls.
Proof.
  induction urls as [|u rest IH]; intros w; simpl.
  - now rewrite app_nil_r.
  - rewrite IH. simpl. now rewrite <- app_assoc.
Qed.

(** The downloads touch nothing but the trace: the list is still stored
    while they are started. *)
Lemma run_downloads_frame urls : forall w,
  clipboard (run_downloads urls w) = clipboard w /\
  list_file (run_downloads urls w) = list_file w /\
  can_read (run_downloads urls w) = can_read w /\
  can_write (run_downloads urls w) = can_write w.
Proof.
  induction urls as [|u rest IH]; intros w; simpl.
  - repeat split.
  - destruct (IH (RunDownload u w)) as (H1 & H2 & H3 & H4).
    rewrite H1, H2, H3, H4. repeat split.
Qed.

Lemma ClearList_trace w :
  trace (ClearList w) = trace w ++ clear_events w.
Proof.
  unfold ClearList, clear_events. destruct (can_write w); simpl.
  - reflexivity.
  - now rewrite app_nil_r.
Qed.

Lemma DownloadAll_trace w :
  trace (DownloadAll w)
  = trace w ++ map download_command (ReadList w) ++ clear_events w.
Proof.
  unfold DownloadAll.
  rewrite ClearList_trace, run_downloads_trace.
  unfold clear_events.
  destruct (run_downloads_frame (ReadList w) w) as (_ & _ & _ & Hw).
  rewrite Hw. now rewrite <- app_assoc.
Qed.

Lemma DownloadAll_list_file w :
  list_file (DownloadAll w) = if can_write w then Some [] else list_file w.
Proof.
  unfold DownloadAll, ClearList.
  destruct (run_downloads_frame (ReadList w) w) as (_ & Hf & _ & Hw).
  rewrite Hw. destruct (can_write w); simpl; [reflexivity|exact Hf].
Qed.

Lemma added_events_app w w' l :
  trace w' = trace w ++ l -> added_events w w' = l.
Proof.
  unfold added_events. intros ->.
  rewrite skipn_app, skipn_all, Nat.sub_diag. reflexivity.
Qed.

(** The characters of the file are characters that an input stream
    delivers: all of them are below 256. *)
Lemma file_content_convertible w : convertible (file_content w) = true.
Proof.
  unfold file_content, list_file.
  destruct (list_file_bytes w); simpl; [apply convertible_widen|reflexivity].
Qed.

Lemma list_file_set w s :
  convertible s = true -> list_file (set_list_file w (Some s)) = Some s.
Proof.
  intros H. unfold list_file, set_list_file. simpl. now rewrite widen_bytes_of.
Qed.

(** Appending characters that can be written puts them behind what the
    file held. *)
Lemma list_file_appended w out :
  convertible out = true ->
  list_file (set_list_file w (Some (file_content w ++ out)))
  = Some (file_content w ++ out).
Proof.
  intros H. apply list_file_set.
  now rewrite convertible_app, file_content_convertible, H.
Qed.


(** What an insertion puts into the file can always be written. *)
Lemma inserted_convertible w text : convertible (inserted w text) = true.
Proof.
  unfold inserted. destruct (convertible text) eqn:H.
  - now rewrite convertible_app, H.
  - apply convertible_firstn, convertible_prefix_convertible.
Qed.

Lemma inserted_text w text :
  convertible text = true -> inserted w text = text ++ [newline].
Proof. unfold inserted. now intros ->. Qed.

(** The call either does nothing or opens the file and inserts the
    clipboard text. *)
Lemma AddLinkFromClipboard_cases w :
  AddLinkFromClipboard w = w \/
  exists text,
    clipboard_text w = Some text /\ text <> [] /\ can_write w = true /\
    AddLinkFromClipboard w =
    emit (set_list_file w (Some (file_content w ++ inserted w text)))
         (FileAppended (inserted w text)).
Proof.
  unfold clipboard_text, AddLinkFromClipboard.
  destruct (clipboard w) as [| | |buf]; try (now left).
  destruct (wstring_of_cstr buf) as [|c text] eqn:Ht; [now left|].
  simpl. destruct (can_write w) eqn:Hw; [|now left].
  right. exists (c :: text). repeat split. discriminate.
Qed.

Lemma AddLinkFromClipboard_appends w text :
  clipboard_text w = Some text -> text <> [] -> can_write w = true ->
  convertible text = true ->
  AddLinkFromClipboard w =
  emit (set_list_file w (Some (file_content w ++ text ++ [newline])))
       (FileAppended (text ++ [newline])).
Proof.
  intros Hc Hne Hw Hcv.
  destruct (AddLinkFromClipboard_cases w) as [Hsame|(t & Ht & _ & _ & ->)].
  - exfalso. unfold clipboard_text, AddLinkFromClipboard in *.
    destruct (clipboard w) as [| | |buf]; try discriminate.
    injection Hc as Hc. rewrite Hc, Hw in Hsame.
    destruct text as [|c text]; [contradiction|]. simpl in Hsame.
    apply (f_equal (fun x => length (trace x))) in Hsame.
    simpl in Hsame. rewrite length_app in Hsame. simpl in Hsame. lia.
  - assert (t = text) by congruence. subst t.
    now rewrite (inserted_text _ _ Hcv).
Qed.

(** Whatever the clipboard, the file system and the runtime do, the call
    leaves the old characters of the file where they were. *)
Lemma AddLinkFromClipboard_extends w :
  exists added, file_content (AddLinkFromClipboard w) = file_content w ++ added.
Proof.
  destruct (AddLinkFromClipboard_cases w) as [->|(text & _ & _ & _ & ->)].
  - exists []. now rewrite app_nil_r.
  - exists (inserted w text). unfold file_content at 1.
    change (list_file (emit ?x ?e)) with (list_file x).
    now rewrite list_file_appended by apply inserted_convertible.
Qed.

(** The list as [ReadList] sees it after an append to a file whose lines
    all have their terminator. *)
Lemma ReadList_after_append w added :
  can_read w = true ->
  terminated (file_content w) = true ->
  convertible added = true ->
  ReadList (set_list_file w (Some (file_content w ++ added)))
  = ReadList w ++ nonempty_lines added.
Proof.
  intros Hr Ht Hcv.
  rewrite (ReadList_nonempty_lines _ (file_content w ++ added)).
  - rewrite nonempty_lines_app by assumption. f_equal.
    rewrite ReadList_stream_content. unfold stream_content, file_content.
    unfold wifstream_open. rewrite Hr. reflexivity.
  - unfold wifstream_open. simpl can_read. rewrite Hr.
    now apply list_file_appended.
Qed.

Lemma ReadList_AddLinkFromClipboard w text :
  clipboard_text w = Some text -> text <> [] ->
  can_write w = true -> can_read w = true ->
  terminated (file_content w) = true ->
  convertible text = true ->
  ReadList (AddLinkFromClipboard w) = ReadList w ++ nonempty_lines text.
Proof.
  intros Hc Hne Hw Hr Ht Hcv.
  rewrite (AddLinkFromClipboard_appends _ _ Hc Hne Hw Hcv), ReadList_emit.
  rewrite ReadList_after_append; try assumption.
  - now rewrite nonempty_lines_newline.
  - now rewrite convertible_app, Hcv.
Qed.

(** The entries of the list are made of characters that can be written. *)
Lemma segments_In s : forall seg c,
  In seg (segments s) -> In c seg -> In c s.
Proof.
  induction s as [|d rest IH]; intros seg c Hseg Hc; simpl in Hseg.
  - destruct Hseg as [<-|[]]. destruct Hc.
  - destruct (d =? newline).
    + destruct Hseg as [<-|Hseg]; [destruct Hc|]. right. eauto.
    + destruct (segments rest) as [|seg' segs] eqn:E.
      * destruct Hseg as [<-|[]]. destruct Hc as [<-|[]]. now left.
      * destruct Hseg as [<-|Hseg].
        -- destruct Hc as [<-|Hc]; [now left|].
           right. apply (IH seg'); [now left|assumption].
        -- right. apply (IH seg); [now right|assumption].
Qed.

Lemma ReadList_convertible w url :
  In url (ReadList w) -> convertible url = true.
Proof.
  rewrite ReadList_stream_content. unfold nonempty_lines.
  intros Hin. apply filter_In in Hin as [Hin _].
  apply In_convertible. intros c Hc.
  apply (convertible_In (stream_content w)).
  - unfold stream_content, wifstream_open.
    destruct (can_read w); [|reflexivity].
    destruct (list_file w) as [f|] eqn:Hf; [|reflexivity].
    pose proof (file_content_convertible w) as H.
    unfold file_content in H. now rewrite Hf in H.
  - now apply (segments_In _ url).
Qed.

(** *** Lines keep their newline while the texts can be written *)

Lemma AddLinkFromClipboard_terminated w :
  clipboard_convertible (clipboard w) = true ->
  terminated (file_content w) = true ->
  terminated (file_content (AddLinkFromClipboard w)) = true.
Proof.
  intros Hcv Ht.
  destruct (AddLinkFromClipboard_cases w) as [->|(text & Hc & _ & _ & ->)];
    [exact Ht|].
  assert (Htext : convertible text = true).
  { unfold clipboard_text in Hc. unfold clipboard_convertible in Hcv.
    destruct (clipboard w); try discriminate. now injection Hc as <-. }
  rewrite (inserted_text _ _ Htext).
  unfold file_content at 1.
  change (list_file (emit ?x ?e)) with (list_file x).
  rewrite list_file_appended by (now rewrite convertible_app, Htext).
  rewrite app_assoc. apply terminated_app_newline.
Qed.

Lemma DownloadAll_terminated w :
  terminated (file_content w) = true ->
  terminated (file_content (DownloadAll w)) = true.
Proof.
  intros Ht. unfold file_content at 1. rewrite DownloadAll_list_file.
  destruct (can_write w); [reflexivity|exact Ht].
Qed.

End Operations.

(** ** The bytes written *)

Section EncodingFacts.

Import Encoding.

Implicit Types (s : wstring) (bs : list byte).







End EncodingFacts.

(** * The claims *)

(** ** The download-all operation *)

(** C1, as stated, fails: a list file that can be opened for output and
    not for input holds the URL [a]; [DownloadAll] starts no downloader for
    it and clears the list all the same. *)
Lemma DownloadAll_write_only_loses_list :
  nonempty_lines (file_content write_only_world) = [L "a"] /\
  trace (DownloadAll write_only_world) = [FileTruncated] /\
  ~ In (download_command (L "a")) (trace (DownloadAll write_only_world)) /\
  list_file (DownloadAll write_only_world) = Some [].
Proof.
  split; [reflexivity|]. split; [reflexivity|]. split; [|reflexivity].
  intros [H|[]]. discriminate.
Qed.

(** C1 (amended): when the list file can be opened for input, [DownloadAll]
    performs exactly one downloader invocation per stored URL, that is per
    non-empty line of the file, in the order in which the lines stand in the
    file, and only after the last of them clears the list (which it does
    when the file can be opened for output). *)
Theorem DownloadAll_once_per_stored_url : forall w,
  can_read w = true ->
  trace (DownloadAll w)
  = trace w ++ map download_command (nonempty_lines (file_content w))
    ++ clear_events w /\
  list_file (DownloadAll w) = (if can_write w then Some [] else list_file w).
Proof.
  intros w Hr. split.
  - rewrite DownloadAll_trace, ReadList_stream_content.
    unfold stream_content, wifstream_open, file_content. now rewrite Hr.
  - apply DownloadAll_list_file.
Qed.

Lemma DownloadAll_once_per_stored_url_witness :
  trace (DownloadAll two_url_world)
  = trace two_url_world
    ++ map download_command (nonempty_lines (file_content two_url_world))
    ++ clear_events two_url_world /\
  list_file (DownloadAll two_url_world)
  = (if can_write two_url_world then Some [] else list_file two_url_world).
Proof.
  apply (DownloadAll_once_per_stored_url two_url_world). reflexivity.
Defined.

(** C2, as stated, fails: on a write-protected list file the truncation
    does not happen and the list is read back as it was. *)
Lemma DownloadAll_read_only_keeps_list :
  ReadList read_only_world = [L "a"] /\
  ReadList (DownloadAll read_only_world) = [L "a"] /\
  ReadList (DownloadAll read_only_world) <> [].
Proof.
  split; [reflexivity|]. split; [reflexivity|discriminate].
Qed.

(** C2 (amended): when the list file can be opened for output, then for
    every prior content the file is empty after [DownloadAll] and a
    following [ReadList] returns the empty list. *)
Theorem DownloadAll_clears_list : forall w,
  can_write w = true ->
  list_file (DownloadAll w) = Some [] /\ ReadList (DownloadAll w) = [].
Proof.
  intros w Hw.
  assert (Hf : list_file (DownloadAll w) = Some []).
  { rewrite DownloadAll_list_file. now rewrite Hw. }
  split; [exact Hf|].
  unfold ReadList, wifstream_open. rewrite Hf.
  destruct (can_read (DownloadAll w)); reflexivity.
Qed.

Lemma DownloadAll_clears_list_witness :
  can_write two_url_world = true /\
  list_file (DownloadAll two_url_world) = Some [] /\
  ReadList (DownloadAll two_url_world) = [].
Proof.
  split; [reflexivity|].
  apply (DownloadAll_clears_list two_url_world). reflexivity.
Defined.

(** C7: when the list file is missing or cannot be opened for input,
    [ReadList] returns the empty list and [DownloadAll] starts no downloader
    and shows nothing: the only thing it may do is truncate the file. *)
Theorem DownloadAll_missing_file : forall w,
  list_file w = None \/ can_read w = false ->
  ReadList w = [] /\
  trace (DownloadAll w) = trace w ++ clear_events w.
Proof.
  intros w H.
  assert (Hr : ReadList w = []).
  { apply ReadList_unopened. unfold wifstream_open.
    destruct H as [-> | ->]; [now destruct (can_read w)|reflexivity]. }
  split; [exact Hr|].
  rewrite DownloadAll_trace, Hr. reflexivity.
Qed.

Lemma DownloadAll_missing_file_witness :
  ReadList (world_with_file None) = [] /\
  trace (DownloadAll (world_with_file None))
  = trace (world_with_file None) ++ clear_events (world_with_file None).
Proof.
  apply (DownloadAll_missing_file (world_with_file None)).
  left. reflexivity.
Defined.

(** C8: for every content of the list file, [ReadList] returns no empty
    string: when the file can be opened, its entries are the non-empty
    pieces between the newlines of the file, so that blank lines give no
    entry; and the downloads that [DownloadAll] starts are one per entry,
    hence none for a blank line. *)
Theorem ReadList_no_empty_entry : forall w,
  ~ In [] (ReadList w) /\
  (can_read w = true ->
   ReadList w = filter nonempty (segments (file_content w))) /\
  added_events w (DownloadAll w)
  = map download_command (ReadList w) ++ clear_events w.
Proof.
  intros w. split; [|split].
  - intros Hin. now destruct (ReadList_entries _ _ Hin) as [Hne _].
  - intros Hr. rewrite ReadList_stream_content.
    unfold stream_content, wifstream_open, file_content. now rewrite Hr.
  - apply added_events_app, DownloadAll_trace.
Qed.

Lemma ReadList_no_empty_entry_witness :
  ~ In [] (ReadList two_url_world) /\
  ReadList two_url_world
  = filter nonempty (segments (file_content two_url_world)) /\
  added_events two_url_world (DownloadAll two_url_world)
  = map download_command (ReadList two_url_world) ++ clear_events two_url_world.
Proof.
  destruct (ReadList_no_empty_entry two_url_world) as (Hno & Hlines & Hev).
  split; [exact Hno|]. split; [|exact Hev].
  apply Hlines. reflexivity.
Defined.

(** ** The add operation *)

(** C3, as stated, fails in three ways.  With a list file that cannot be
    opened for output the add hotkey appends nothing; a text with a
    character that the stream cannot convert, here U+0416, is not appended;
    and a text that is appended is not always one line: the text [a],
    newline, [b] gives two lines of the list. *)
Lemma hotkey_add_not_one_line_appended :
  (clipboard_text unwritable_add_world = Some (L "a") /\
   list_file (WndProc WM_HOTKEY HOTKEY_ADD 0 unwritable_add_world)
   = list_file unwritable_add_world /\
   list_file (WndProc WM_HOTKEY HOTKEY_ADD 0 unwritable_add_world)
   <> Some (file_content unwritable_add_world ++ L "a" ++ [newline])) /\
  (clipboard_text wide_text_world = Some [1046] /\
   list_file (WndProc WM_HOTKEY HOTKEY_ADD 0 wide_text_world)
   = list_file wide_text_world /\
   list_file (WndProc WM_HOTKEY HOTKEY_ADD 0 wide_text_world)
   <> Some (file_content wide_text_world ++ [1046] ++ [newline])) /\
  (clipboard_text multiline_world = Some two_line_text /\
   ReadList (WndProc WM_HOTKEY HOTKEY_ADD 0 multiline_world)
   = ReadList multiline_world ++ [L "a"; L "b"] /\
   ReadList (WndProc WM_HOTKEY HOTKEY_ADD 0 multiline_world)
   <> ReadList multiline_world ++ [two_line_text]).
Proof.
  repeat split; try reflexivity; discriminate.
Qed.

(** C3 (amended): when the add hotkey fires with a non-empty clipboard text
    every character of which the file stream can convert (characters below
    256), and the list file can be opened for appending, the text followed
    by a newline is put at the end of the list file, after everything the
    file held (a missing file is created), and nothing else happens.  The
    text is then one line of the list, one new entry equal to the text,
    when it has no newline character and the file can be opened for input
    with a prior content that is empty or ends with a newline. *)
Theorem hotkey_add_appends_line : forall w lParam text,
  clipboard_text w = Some text ->
  text <> [] ->
  convertible text = true ->
  can_write w = true ->
  list_file (WndProc WM_HOTKEY HOTKEY_ADD lParam w)
  = Some (file_content w ++ text ++ [newline]) /\
  trace (WndProc WM_HOTKEY HOTKEY_ADD lParam w)
  = trace w ++ [FileAppended (text ++ [newline])] /\
  (no_newline text = true ->
   can_read w = true ->
   terminated (file_content w) = true ->
   ReadList (WndProc WM_HOTKEY HOTKEY_ADD lParam w) = ReadList w ++ [text]).
Proof.
  intros w lParam text Hc Hne Hcv Hw.
  change (WndProc WM_HOTKEY HOTKEY_ADD lParam w) with (AddLinkFromClipboard w).
  split; [|split].
  - rewrite (AddLinkFromClipboard_appends _ _ Hc Hne Hw Hcv).
    change (list_file (emit ?x ?e)) with (list_file x).
    apply list_file_appended. now rewrite convertible_app, Hcv.
  - now rewrite (AddLinkFromClipboard_appends _ _ Hc Hne Hw Hcv).
  - intros Hnn Hr Ht.
    rewrite (ReadList_AddLinkFromClipboard _ _ Hc Hne Hw Hr Ht Hcv).
    now rewrite nonempty_lines_single.
Qed.

Lemma hotkey_add_appends_line_witness :
  list_file (WndProc WM_HOTKEY HOTKEY_ADD 0 add_url_world)
  = Some (file_content add_url_world ++ L "https://a/b" ++ [newline]) /\
  trace (WndProc WM_HOTKEY HOTKEY_ADD 0 add_url_world)
  = trace add_url_world ++ [FileAppended (L "https://a/b" ++ [newline])] /\
  ReadList (WndProc WM_HOTKEY HOTKEY_ADD 0 add_url_world)
  = ReadList add_url_world ++ [L "https://a/b"].
Proof.
  destruct (hotkey_add_appends_line add_url_world 0 (L "https://a/b")
              eq_refl ltac:(discriminate) eq_refl eq_refl)
    as (Hfile & Htrace & Hline).
  split; [exact Hfile|]. split; [exact Htrace|].
  apply Hline; reflexivity.
Defined.

(** C4: when the clipboard is unavailable or empty, or the list file cannot
    be opened for output, [AddLinkFromClipboard] returns with the world as
    it was: the list file is unchanged and nothing is shown or started. *)
Theorem AddLinkFromClipboard_silent_failure : forall w,
  clipboard_text w = None \/ clipboard_text w = Some [] \/ can_write w = false ->
  AddLinkFromClipboard w = w.
Proof.
  intros w H.
  destruct (AddLinkFromClipboard_cases w) as [Hsame|(text & Hc & Hne & Hw & _)];
    [exact Hsame|].
  destruct H as [H|[H|H]]; congruence.
Qed.

Lemma AddLinkFromClipboard_silent_failure_witness :
  AddLinkFromClipboard no_text_world = no_text_world /\
  AddLinkFromClipboard empty_text_world = empty_text_world /\
  AddLinkFromClipboard unwritable_add_world = unwritable_add_world.
Proof.
  split; [|split].
  - apply (AddLinkFromClipboard_silent_failure no_text_world).
    left. reflexivity.
  - apply (AddLinkFromClipboard_silent_failure empty_text_world).
    right. left. reflexivity.
  - apply (AddLinkFromClipboard_silent_failure unwritable_add_world).
    right. right. reflexivity.
Defined.

(** C5, as stated, fails in two ways: a write-protected list file gets no
    second copy, and a stored last line without its newline is joined with
    the added text instead of being followed by a copy. *)
Lemma add_again_without_second_copy :
  (In (L "a") (ReadList duplicate_read_only_world) /\
   clipboard_text duplicate_read_only_world = Some (L "a") /\
   ReadList (AddLinkFromClipboard duplicate_read_only_world) = [L "a"] /\
   ReadList (AddLinkFromClipboard duplicate_read_only_world)
   <> ReadList duplicate_read_only_world ++ [L "a"]) /\
  (In (L "a") (ReadList duplicate_unterminated_world) /\
   clipboard_text duplicate_unterminated_world = Some (L "a") /\
   ReadList (AddLinkFromClipboard duplicate_unterminated_world) = [L "aa"] /\
   ReadList (AddLinkFromClipboard duplicate_unterminated_world)
   <> ReadList duplicate_unterminated_world ++ [L "a"]).
Proof.
  split.
  - split; [now left|]. repeat split; try reflexivity. discriminate.
  - split; [now left|]. repeat split; try reflexivity. discriminate.
Qed.

(** C5 (amended): the list is not deduplicated.  When the list file can be
    opened for appending and its content is empty or ends with a newline,
    adding a URL that the list already holds puts a further copy at the end
    of the list, so that the list then has a duplicate; the entries stay in
    insertion order. *)
Theorem add_again_appends_second_copy : forall w url,
  In url (ReadList w) ->
  clipboard_text w = Some url ->
  can_write w = true ->
  terminated (file_content w) = true ->
  ReadList (AddLinkFromClipboard w) = ReadList w ++ [url] /\
  count_occ (list_eq_dec N.eq_dec) (ReadList (AddLinkFromClipboard w)) url
  = S (count_occ (list_eq_dec N.eq_dec) (ReadList w) url) /\
  ~ NoDup (ReadList (AddLinkFromClipboard w)).
Proof.
  intros w url Hin Hc Hw Ht.
  destruct (ReadList_entries _ _ Hin) as [Hne Hnn].
  pose proof (ReadList_In_can_read _ _ Hin) as Hr.
  assert (Heq : ReadList (AddLinkFromClipboard w) = ReadList w ++ [url]).
  { rewrite (ReadList_AddLinkFromClipboard _ _ Hc Hne Hw Hr Ht
               (ReadList_convertible _ _ Hin)).
    now rewrite nonempty_lines_single. }
  split; [exact Heq|]. rewrite Heq. split.
  - rewrite count_occ_app. simpl.
    destruct (list_eq_dec N.eq_dec url url); [apply Nat.add_1_r|contradiction].
  - intros Hnd. apply NoDup_remove_2 in Hnd.
    apply Hnd. rewrite app_nil_r. exact Hin.
Qed.

Lemma add_again_appends_second_copy_witness :
  ReadList (AddLinkFromClipboard duplicate_world)
  = ReadList duplicate_world ++ [L "u"] /\
  count_occ (list_eq_dec N.eq_dec) (ReadList (AddLinkFromClipboard duplicate_world)) (L "u")
  = S (count_occ (list_eq_dec N.eq_dec) (ReadList duplicate_world) (L "u")) /\
  ~ NoDup (ReadList (AddLinkFromClipboard duplicate_world)).
Proof.
  apply (add_again_appends_second_copy duplicate_world (L "u")).
  - left. reflexivity.
  - reflexivity.
  - reflexivity.
  - reflexivity.
Defined.

(** C9, as stated, fails: a stored last line without its newline does not
    survive the call unchanged, the added text is joined to it. *)
Lemma add_joins_unterminated_line :
  ReadList unterminated_world = [L "x"; L "a"] /\
  ReadList (AddLinkFromClipboard unterminated_world) = [L "x"; L "ab"] /\
  In (L "a") (ReadList unterminated_world) /\
  ~ In (L "a") (ReadList (AddLinkFromClipboard unterminated_world)).
Proof.
  split; [reflexivity|]. split; [reflexivity|].
  split; [right; now left|].
  intros [H|[H|[]]]; discriminate.
Qed.

(** C9 (amended): [AddLinkFromClipboard] only appends: the characters the
    list file held before the call are an unchanged prefix of what it holds
    after the call; and when that prior content is empty or ends with a
    newline, every entry of the list before the call is an entry after it,
    unchanged and in the same order, before any new entry. *)
Theorem AddLinkFromClipboard_append_only : forall w,
  (exists added,
     file_content (AddLinkFromClipboard w) = file_content w ++ added) /\
  (terminated (file_content w) = true ->
   exists new, ReadList (AddLinkFromClipboard w) = ReadList w ++ new).
Proof.
  intros w. split; [apply AddLinkFromClipboard_extends|].
  intros Ht.
  destruct (AddLinkFromClipboard_cases w) as [->|(text & _ & _ & _ & ->)].
  - exists []. now rewrite app_nil_r.
  - rewrite ReadList_emit. destruct (can_read w) eqn:Hr.
    + eexists. apply ReadList_after_append; try assumption.
      apply inserted_convertible.
    + exists []. rewrite app_nil_r.
      rewrite !ReadList_unopened; [reflexivity| |]; open_stream.
Qed.

Lemma AddLinkFromClipboard_append_only_witness :
  terminated (file_content terminated_world) = true /\
  (exists added,
     file_content (AddLinkFromClipboard terminated_world)
     = file_content terminated_world ++ added) /\
  (exists new,
     ReadList (AddLinkFromClipboard terminated_world)
     = ReadList terminated_world ++ new).
Proof.
  split; [reflexivity|].
  destruct (AddLinkFromClipboard_append_only terminated_world) as [Hpre Hlines].
  split; [exact Hpre|]. apply Hlines. reflexivity.
Defined.

(** C10: there is a clipboard text with an embedded newline for which
    [AddLinkFromClipboard] followed by [ReadList] gives more than one new
    entry, one per non-empty piece of the text, and no entry holding the
    whole text. *)
Theorem add_multiline_text_gives_several_entries :
  exists w text,
    clipboard_text w = Some text /\
    In newline text /\
    ReadList (AddLinkFromClipboard w) = ReadList w ++ nonempty_lines text /\
    (1 < length (nonempty_lines text))%nat /\
    ~ In text (ReadList (AddLinkFromClipboard w)).
Proof.
  exists multiline_world, two_line_text.
  split; [reflexivity|]. split; [right; now left|].
  split; [reflexivity|]. split; [simpl; lia|].
  intros [H|[H|[H|[]]]]; discriminate.
Qed.

(** ** The encoding of the list file *)




(** * Further properties of the code *)

(** ** [GetModuleDir] and the paths of the program *)

Section ModuleDir.

Implicit Types (s set dir name : wstring) (sep : wchar).

Lemma find_last_of_none s set :
  find_last_of s set = None <->
  forallb (fun c => negb (existsb (N.eqb c) set)) s = true.
Proof.
  induction s as [|c rest IH]; simpl; [tauto|].
  destruct (find_last_of rest set) as [p|].
  - split; [discriminate|].
    intros H. apply andb_true_iff in H as [_ H].
    apply IH in H. discriminate.
  - destruct (existsb (N.eqb c) set); simpl.
    + split; discriminate.
    + split; intros _; [now apply IH|reflexivity].
Qed.

(** The position found is that of a character of [set], and no character
    after it is in [set]. *)
Lemma find_last_of_some s set : forall pos,
  find_last_of s set = Some pos ->
  exists c name,
    s = firstn pos s ++ c :: name /\
    length (firstn pos s) = pos /\
    existsb (N.eqb c) set = true /\
    find_last_of name set = None.
Proof.
  induction s as [|c rest IH]; intros pos H; simpl in H; [discriminate|].
  destruct (find_last_of rest set) as [p|] eqn:Hrest.
  - injection H as <-.
    destruct (IH p eq_refl) as (d & name & Heq & Hlen & Hd & Hnone).
    exists d, name. simpl. rewrite Hlen. repeat split; try assumption.
    now rewrite <- Heq.
  - destruct (existsb (N.eqb c) set) eqn:Hc; [|discriminate].
    injection H as <-. exists c, rest. repeat split; assumption.
Qed.

Lemma find_last_of_app dir sep name set :
  existsb (N.eqb sep) set = true ->
  find_last_of name set = None ->
  find_last_of (dir ++ sep :: name) set = Some (length dir).
Proof.
  intros Hsep Hname. induction dir as [|c rest IH]; simpl.
  - now rewrite Hname, Hsep.
  - now rewrite IH.
Qed.

Lemma wstring_of_cstr_app_NUL (text rest : list wchar) :
  no_NUL text = true -> wstring_of_cstr (text ++ NUL :: rest) = text.
Proof.
  induction text as [|c text' IH]; simpl; [reflexivity|].
  intros H. apply andb_true_iff in H as [Hc H].
  destruct (c =? NUL); [discriminate|]. now rewrite IH.
Qed.

Lemma firstn_length_app (A : Type) (l1 l2 : list A) :
  firstn (length l1) (l1 ++ l2) = l1.
Proof.
  rewrite firstn_app, Nat.sub_diag, firstn_all. simpl. apply app_nil_r.
Qed.

Lemma GetModuleDir_joined dir sep name :
  existsb (N.eqb sep) path_separators = true ->
  no_separator name = true ->
  no_NUL (dir ++ sep :: name) = true ->
  GetModuleDir ((dir ++ sep :: name) ++ [NUL]) = dir.
Proof.
  intros Hsep Hname Hnul. unfold GetModuleDir.
  rewrite (wstring_of_cstr_app_NUL _ [] Hnul).
  rewrite find_last_of_app; [apply firstn_length_app|assumption|].
  now apply find_last_of_none.
Qed.

End ModuleDir.

(** X1: when the module file name is a directory, one separator (backslash
    or slash) and a file name without separators, [GetModuleDir] returns
    exactly the directory, whatever separators the directory itself has. *)
Theorem GetModuleDir_strips_file_name : forall dir sep name,
  In sep path_separators ->
  no_separator name = true ->
  no_NUL (dir ++ sep :: name) = true ->
  GetModuleDir ((dir ++ sep :: name) ++ [NUL]) = dir.
Proof.
  intros dir sep name Hin Hname Hnul.
  apply GetModuleDir_joined; try assumption.
  apply existsb_exists. exists sep. split; [exact Hin|apply N.eqb_refl].
Qed.

Lemma GetModuleDir_strips_file_name_witness :
  GetModuleDir ((L "C:\Tools/yt" ++ 92 :: L "tray.exe") ++ [NUL]) = L "C:\Tools/yt".
Proof.
  apply (GetModuleDir_strips_file_name (L "C:\Tools/yt") 92 (L "tray.exe")).
  - left. reflexivity.
  - reflexivity.
  - reflexivity.
Defined.

(** X2: for every buffer, [GetModuleDir] returns either the whole path,
    when the path has no separator, or the part of the path before its
    last separator: the path is the result, one separator and a rest
    without separators.  A path that begins with its only separator gives
    the empty string. *)
Theorem GetModuleDir_splits_at_last_separator : forall buf,
  (no_separator (wstring_of_cstr buf) = true /\
   GetModuleDir buf = wstring_of_cstr buf) \/
  (exists sep name,
     In sep path_separators /\
     no_separator name = true /\
     wstring_of_cstr buf = GetModuleDir buf ++ sep :: name).
Proof.
  intros buf. unfold GetModuleDir.
  destruct (find_last_of (wstring_of_cstr buf) path_separators) as [pos|] eqn:H.
  - right. destruct (find_last_of_some _ _ _ H) as (c & name & Heq & _ & Hc & Hn).
    exists c, name. split; [|split].
    + apply existsb_exists in Hc as (x & Hx & Hcx).
      apply N.eqb_eq in Hcx. now subst x.
    + now apply find_last_of_none.
    + exact Heq.
  - left. split; [now apply find_last_of_none|reflexivity].
Qed.



(** ** Reading the list *)

Section Reading.

Implicit Types (w : World) (s a b : wstring).

Lemma no_newline_In s : no_newline s = true -> ~ In newline s.
Proof.
  unfold no_newline. intros H Hin.
  rewrite forallb_forall in H. specialize (H _ Hin).
  now rewrite N.eqb_refl in H.
Qed.

Lemma nonempty_lines_unlines (ls : list wstring) :
  Forall (fun l => l <> [] /\ no_newline l = true) ls ->
  nonempty_lines (unlines ls) = ls.
Proof.
  induction 1 as [|l rest [Hne Hnn] _ IH]; [reflexivity|].
  unfold unlines in *. simpl.
  rewrite nonempty_lines_app by apply terminated_app_newline.
  rewrite nonempty_lines_newline, nonempty_lines_single by assumption.
  simpl. now rewrite IH.
Qed.

Lemma nonempty_lines_blank_line a b :
  nonempty_lines (a ++ newline :: newline :: b)
  = nonempty_lines (a ++ newline :: b).
Proof.
  unfold nonempty_lines.
  rewrite !segments_app_newline. simpl.
  rewrite !filter_app. reflexivity.
Qed.

Lemma ReadList_set_list_file w s :
  can_read w = true ->
  ReadList (set_list_file w (Some s)) = nonempty_lines (widen (bytes_of s)).
Proof.
  intros Hr. apply ReadList_nonempty_lines.
  unfold wifstream_open. simpl can_read. now rewrite Hr.
Qed.

(** [ReadList] looks at the file and at nothing else. *)
Lemma ReadList_ext w w' :
  list_file w' = list_file w -> can_read w' = can_read w ->
  ReadList w' = ReadList w.
Proof.
  unfold ReadList, wifstream_open. now intros -> ->.
Qed.

End Reading.

(** X4: every entry that [ReadList] returns is a single line: it contains
    no newline character. *)
Theorem ReadList_entries_single_line : forall w url,
  In url (ReadList w) -> ~ In newline url.
Proof.
  intros w url Hin. apply no_newline_In.
  now destruct (ReadList_entries _ _ Hin).
Qed.

Lemma ReadList_entries_single_line_witness :
  ~ In newline (L "v").
Proof.
  apply (ReadList_entries_single_line stored_world (L "v")).
  right. left. reflexivity.
Defined.

(** X5: a list file made of non-empty lines without embedded newlines,
    each followed by its newline, is read back by [ReadList] as exactly
    these lines, in order and with their duplicates. *)
Theorem ReadList_reads_back_lines : forall w urls,
  can_read w = true ->
  list_file w = Some (unlines urls) ->
  Forall (fun u => u <> [] /\ no_newline u = true) urls ->
  ReadList w = urls.
Proof.
  intros w urls Hr Hf Hall.
  rewrite (ReadList_nonempty_lines w (unlines urls)).
  - now apply nonempty_lines_unlines.
  - unfold wifstream_open. now rewrite Hr.
Qed.

Lemma ReadList_reads_back_lines_witness :
  ReadList (world_with_file (Some (unlines [L "u"; L "v"; L "u"])))
  = [L "u"; L "v"; L "u"].
Proof.
  apply (ReadList_reads_back_lines
           (world_with_file (Some (unlines [L "u"; L "v"; L "u"])))
           [L "u"; L "v"; L "u"]).
  - reflexivity.
  - reflexivity.
  - repeat constructor; discriminate.
Defined.

(** X6: blank lines and a final newline do not change the list: a file
    with a further empty line between two lines, and a file with a newline
    added at its end, are read as the same list. *)
Theorem ReadList_ignores_blank_lines : forall w a b,
  ReadList (set_list_file w (Some (a ++ [newline; newline] ++ b)))
  = ReadList (set_list_file w (Some (a ++ [newline] ++ b))) /\
  ReadList (set_list_file w (Some (a ++ [newline])))
  = ReadList (set_list_file w (Some a)).
Proof.
  intros w a b. destruct (can_read w) eqn:Hr.
  - rewrite !ReadList_set_list_file by assumption.
    rewrite !bytes_of_app, !widen_app. split.
    + apply nonempty_lines_blank_line.
    + apply nonempty_lines_newline.
  - split; rewrite !ReadList_unopened; try reflexivity; open_stream.
Qed.

(** X7: the loop of [ReadList] comes to its end by a failing [getline]:
    once as many iterations are allowed as the stream has characters, more
    iterations change nothing, and the result is what was collected before
    followed by the non-empty lines of the stream, in order. *)
Theorem read_loop_terminates : forall fuel f res,
  (length f <= fuel)%nat ->
  read_loop fuel f res = read_loop (length f) f res /\
  read_loop fuel f res = res ++ nonempty_lines f.
Proof.
  intros fuel f res H. split.
  - now apply read_loop_enough_fuel.
  - now apply read_loop_nonempty_lines.
Qed.

Lemma read_loop_terminates_witness :
  read_loop 100 (L "a" ++ [newline] ++ L "b") [L "x"]
  = read_loop (length (L "a" ++ [newline] ++ L "b")) (L "a" ++ [newline] ++ L "b") [L "x"] /\
  read_loop 100 (L "a" ++ [newline] ++ L "b") [L "x"]
  = [L "x"] ++ nonempty_lines (L "a" ++ [newline] ++ L "b").
Proof.
  apply (read_loop_terminates 100 (L "a" ++ [newline] ++ L "b") [L "x"]).
  simpl. lia.
Defined.

(** ** Adding *)

(** X8: when the clipboard holds a non-empty text whose characters can
    all be converted, the list file can be opened for input and output and
    its content is empty or ends with a newline, the list after
    [AddLinkFromClipboard] is the list before it followed by the non-empty
    lines of the text, in order: a text of several lines gives several
    entries, its blank lines none. *)
Theorem add_then_read : forall w text,
  clipboard_text w = Some text ->
  text <> [] ->
  convertible text = true ->
  can_write w = true ->
  can_read w = true ->
  terminated (file_content w) = true ->
  ReadList (AddLinkFromClipboard w) = ReadList w ++ nonempty_lines text.
Proof.
  intros w text Hc Hne Hcv Hw Hr Ht.
  now apply ReadList_AddLinkFromClipboard.
Qed.

Lemma add_then_read_witness :
  ReadList (AddLinkFromClipboard multiline_world)
  = ReadList multiline_world ++ nonempty_lines two_line_text.
Proof.
  apply (add_then_read multiline_world two_line_text).
  - reflexivity.
  - discriminate.
  - reflexivity.
  - reflexivity.
  - reflexivity.
  - reflexivity.
Defined.

(** X9: [AddLinkFromClipboard] takes the clipboard block as a C string:
    what follows the first NUL of the block is never stored.  With a block
    made of a non-empty text without NUL whose characters can all be
    converted, a NUL and anything after it, the file gets the text and a
    newline appended, nothing else. *)
Theorem add_stops_at_first_NUL : forall w text rest,
  clipboard w = ClipboardData (text ++ NUL :: rest) ->
  no_NUL text = true ->
  text <> [] ->
  convertible text = true ->
  can_write w = true ->
  list_file (AddLinkFromClipboard w) = Some (file_content w ++ text ++ [newline]).
Proof.
  intros w text rest Hc Hnul Hne Hcv Hw.
  assert (Ht : clipboard_text w = Some text).
  { unfold clipboard_text. rewrite Hc. now rewrite wstring_of_cstr_app_NUL. }
  rewrite (AddLinkFromClipboard_appends _ _ Ht Hne Hw Hcv).
  change (list_file (emit ?x ?e)) with (list_file x).
  apply list_file_appended. now rewrite convertible_app, Hcv.
Qed.

Lemma add_stops_at_first_NUL_witness :
  list_file (AddLinkFromClipboard trailing_block_world)
  = Some (file_content trailing_block_world ++ L "u" ++ [newline]).
Proof.
  apply (add_stops_at_first_NUL trailing_block_world (L "u") (L "junk" ++ [NUL])).
  - reflexivity.
  - reflexivity.
  - discriminate.
  - reflexivity.
  - reflexivity.
Defined.

(** X10: after the add of a text whose characters can all be converted the
    list file ends with a newline, whatever it held before: a last line
    that had lost its newline is closed by the add that is joined to it. *)
Theorem add_leaves_file_terminated : forall w text,
  clipboard_text w = Some text ->
  text <> [] ->
  convertible text = true ->
  can_write w = true ->
  terminated (file_content (AddLinkFromClipboard w)) = true.
Proof.
  intros w text Hc Hne Hcv Hw.
  rewrite (AddLinkFromClipboard_appends _ _ Hc Hne Hw Hcv).
  unfold file_content.
  change (list_file (emit ?x ?e)) with (list_file x).
  rewrite list_file_appended by (now rewrite convertible_app, Hcv).
  rewrite app_assoc. apply terminated_app_newline.
Qed.

Lemma add_leaves_file_terminated_witness :
  terminated (file_content unterminated_world) = false /\
  terminated (file_content (AddLinkFromClipboard unterminated_world)) = true.
Proof.
  split; [reflexivity|].
  apply (add_leaves_file_terminated unterminated_world (L "b")).
  - reflexivity.
  - discriminate.
  - reflexivity.
  - reflexivity.
Defined.

(** ** What the operations leave alone *)

Section Frame.

Implicit Types (w : World).

Lemma run_downloads_ROOT_DIR urls : forall w,
  ROOT_DIR (run_downloads urls w) = ROOT_DIR w.
Proof.
  induction urls as [|u rest IH]; intros w; simpl; [reflexivity|].
  now rewrite IH.
Qed.

Lemma DownloadAll_environment w :
  clipboard (DownloadAll w) = clipboard w /\
  can_read (DownloadAll w) = can_read w /\
  can_write (DownloadAll w) = can_write w /\
  ROOT_DIR (DownloadAll w) = ROOT_DIR w.
Proof.
  unfold DownloadAll, ClearList.
  destruct (run_downloads_frame (ReadList w) w) as (Hc & _ & Hr & Hw).
  pose proof (run_downloads_ROOT_DIR (ReadList w) w) as Hd.
  destruct (can_write (run_downloads (ReadList w) w)) eqn:E; simpl;
    repeat split; congruence.
Qed.

Lemma AddLinkFromClipboard_environment w :
  clipboard (AddLinkFromClipboard w) = clipboard w /\
  can_read (AddLinkFromClipboard w) = can_read w /\
  can_write (AddLinkFromClipboard w) = can_write w /\
  ROOT_DIR (AddLinkFromClipboard w) = ROOT_DIR w.
Proof.
  destruct (AddLinkFromClipboard_cases w) as [->|(text & _ & _ & _ & ->)];
    simpl; repeat split; reflexivity.
Qed.

Lemma AddLinkFromClipboard_trace w :
  exists evs, trace (AddLinkFromClipboard w) = trace w ++ evs /\
              forall url, ~ In (download_command url) evs.
Proof.
  destruct (AddLinkFromClipboard_cases w) as [->|(text & _ & _ & _ & ->)].
  - exists []. split; [now rewrite app_nil_r|intros url []].
  - eexists. split; [reflexivity|].
    intros url [H|[]]. discriminate.
Qed.

Lemma WndProc_environment msg wParam lParam w :
  clipboard (WndProc msg wParam lParam w) = clipboard w /\
  can_read (WndProc msg wParam lParam w) = can_read w /\
  can_write (WndProc msg wParam lParam w) = can_write w /\
  ROOT_DIR (WndProc msg wParam lParam w) = ROOT_DIR w.
Proof.
  unfold WndProc.
  repeat match goal with
         | |- context [if ?b then _ else _] => destruct b
         end;
    first [ apply AddLinkFromClipboard_environment
          | apply DownloadAll_environment
          | simpl; repeat split; reflexivity ].
Qed.

Lemma WndProc_trace_grows msg wParam lParam w :
  exists evs, trace (WndProc msg wParam lParam w) = trace w ++ evs.
Proof.
  unfold WndProc.
  repeat match goal with
         | |- context [if ?b then _ else _] => destruct b
         end;
    try (destruct (AddLinkFromClipboard_trace w) as (evs & H & _);
         now exists evs);
    try (eexists; now apply DownloadAll_trace);
    try (exists []; now rewrite app_nil_r);
    unfold OpenList, ShowInfo, OpenDownloads, emit; simpl;
    rewrite <- ?app_assoc; eexists; reflexivity.
Qed.

End Frame.

(** ** Downloading again *)

(** X11: after a [DownloadAll] that could clear the list, a second
    [DownloadAll] starts no downloader: all it does is truncate the file
    once more. *)
Theorem DownloadAll_twice_downloads_once : forall w,
  can_write w = true ->
  trace (DownloadAll (DownloadAll w)) = trace (DownloadAll w) ++ [FileTruncated].
Proof.
  intros w Hw.
  destruct (DownloadAll_environment w) as (_ & _ & Hw' & _).
  rewrite (DownloadAll_trace (DownloadAll w)).
  unfold clear_events. rewrite Hw', Hw.
  assert (Hr : ReadList (DownloadAll w) = []).
  { unfold ReadList, wifstream_open. rewrite DownloadAll_list_file, Hw.
    destruct (can_read (DownloadAll w)); reflexivity. }
  now rewrite Hr.
Qed.

Lemma DownloadAll_twice_downloads_once_witness :
  trace (DownloadAll (DownloadAll stored_world))
  = trace (DownloadAll stored_world) ++ [FileTruncated].
Proof.
  apply (DownloadAll_twice_downloads_once stored_world). reflexivity.
Defined.

(** X12: when the list file cannot be opened for output, [DownloadAll]
    leaves the list as it is, and every further [DownloadAll] starts the
    same downloads again, in the same order. *)
Theorem DownloadAll_unwritable_repeats : forall w,
  can_write w = false ->
  list_file (DownloadAll w) = list_file w /\
  ReadList (DownloadAll w) = ReadList w /\
  trace (DownloadAll (DownloadAll w))
  = trace (DownloadAll w) ++ map download_command (ReadList w).
Proof.
  intros w Hw.
  destruct (DownloadAll_environment w) as (_ & Hr' & Hw' & _).
  assert (Hf : list_file (DownloadAll w) = list_file w).
  { rewrite DownloadAll_list_file. now rewrite Hw. }
  assert (Hl : ReadList (DownloadAll w) = ReadList w)
    by (now apply ReadList_ext).
  split; [exact Hf|]. split; [exact Hl|].
  rewrite (DownloadAll_trace (DownloadAll w)), Hl.
  unfold clear_events. rewrite Hw', Hw. now rewrite app_nil_r.
Qed.

Lemma DownloadAll_unwritable_repeats_witness :
  list_file (DownloadAll stored_read_only_world) = list_file stored_read_only_world /\
  ReadList (DownloadAll stored_read_only_world) = ReadList stored_read_only_world /\
  trace (DownloadAll (DownloadAll stored_read_only_world))
  = trace (DownloadAll stored_read_only_world)
    ++ map download_command (ReadList stored_read_only_world).
Proof.
  apply (DownloadAll_unwritable_repeats stored_read_only_world). reflexivity.
Defined.

(** ** The window procedure *)

(** X13: no message makes [WndProc] change the clipboard, the
    accessibility of the list file or the program's directory, and no
    message removes or rewrites what the program has done before: the
    trace only grows. *)
Theorem WndProc_keeps_environment : forall msg wParam lParam w,
  clipboard (WndProc msg wParam lParam w) = clipboard w /\
  can_read (WndProc msg wParam lParam w) = can_read w /\
  can_write (WndProc msg wParam lParam w) = can_write w /\
  ROOT_DIR (WndProc msg wParam lParam w) = ROOT_DIR w /\
  exists evs, trace (WndProc msg wParam lParam w) = trace w ++ evs.
Proof.
  intros msg wParam lParam w.
  destruct (WndProc_environment msg wParam lParam w) as (H1 & H2 & H3 & H4).
  repeat split; try assumption. apply WndProc_trace_grows.
Qed.

(** X14: only the add hotkey, the download hotkey and the download command
    of the menu reach the list: every other message leaves the list file
    as it is and starts no downloader. *)
Theorem WndProc_other_messages_keep_list : forall msg wParam lParam w,
  (msg = WM_HOTKEY -> wParam <> HOTKEY_ADD /\ wParam <> HOTKEY_DOWNLOAD) ->
  (msg = WM_COMMAND -> LOWORD wParam <> ID_DOWNLOAD) ->
  list_file (WndProc msg wParam lParam w) = list_file w /\
  exists evs,
    trace (WndProc msg wParam lParam w) = trace w ++ evs /\
    forall url, ~ In (download_command url) evs.
Proof.
  intros msg wParam lParam w Hhot Hcmd. unfold WndProc.
  destruct (N.eqb_spec msg WM_HOTKEY) as [Hm|Hm].
  - destruct (Hhot Hm) as [Ha Hd].
    destruct (N.eqb_spec wParam HOTKEY_ADD); [contradiction|].
    destruct (N.eqb_spec wParam HOTKEY_DOWNLOAD); [contradiction|].
    split; [reflexivity|]. exists []. split; [now rewrite app_nil_r|intros url []].
  - destruct (N.eqb_spec msg WM_COMMAND) as [Hc|Hc].
    + specialize (Hcmd Hc).
      destruct (N.eqb_spec (LOWORD wParam) ID_DOWNLOAD); [contradiction|].
      repeat match goal with
             | |- context [if ?b then _ else _] => destruct b
             end;
        (split; [reflexivity|]);
        try (exists []; split; [now rewrite app_nil_r|intros url []]);
        (eexists; split; [reflexivity|]);
        intros url [H|[]]; discriminate.
    + repeat match goal with
             | |- context [if ?b then _ else _] => destruct b
             end;
        (split; [reflexivity|]);
        try (exists []; split; [now rewrite app_nil_r|intros url []]).
      * eexists; split; [reflexivity|]. intros url [H|[]]; discriminate.
      * exists [HotkeysUnregistered; TrayIconRemoved; PostQuitMessage 0].
        split; [simpl; now rewrite <- !app_assoc|].
        intros url [H|[H|[H|[]]]]; discriminate.
      * eexists; split; [reflexivity|]. intros url [H|[]]; discriminate.
Qed.

Lemma WndProc_other_messages_keep_list_witness :
  list_file (WndProc WM_COMMAND ID_OPEN_LIST 0 stored_world) = list_file stored_world /\
  exists evs,
    trace (WndProc WM_COMMAND ID_OPEN_LIST 0 stored_world) = trace stored_world ++ evs /\
    forall url, ~ In (download_command url) evs.
Proof.
  apply (WndProc_other_messages_keep_list WM_COMMAND ID_OPEN_LIST 0 stored_world).
  - discriminate.
  - intros _. discriminate.
Defined.

Lemma LOWORD_idempotent (x : N) : LOWORD (LOWORD x) = LOWORD x.
Proof.
  unfold LOWORD. now rewrite <- N.land_assoc, N.land_diag.
Qed.

Lemma LOWORD_mod (x : N) : LOWORD x = x mod 65536.
Proof.
  unfold LOWORD. change 65535 with (N.ones 16). now rewrite N.land_ones.
Qed.

(** X15: a [WM_COMMAND] is handled by the low word of its [wParam] alone:
    the high word (the notification code) and [lParam] make no difference,
    so any [wParam] that is congruent to a command identifier modulo 65536
    runs that command. *)
Theorem WM_COMMAND_low_word_only : forall wParam lParam lParam' w,
  WndProc WM_COMMAND wParam lParam w
  = WndProc WM_COMMAND (wParam mod 65536) lParam' w.
Proof.
  intros wParam lParam lParam' w. unfold WndProc.
  change (WM_COMMAND =? WM_HOTKEY) with false.
  change (WM_COMMAND =? WM_COMMAND) with true. cbv iota.
  rewrite <- (LOWORD_mod wParam), LOWORD_idempotent. reflexivity.
Qed.

(** X16: a [WM_COMMAND] whose identifier is not the identifier of an entry
    of the popup menu does nothing at all; [ID_CHANGE_HOTKEY] is such an
    identifier. *)
Theorem WM_COMMAND_outside_menu_ignored : forall wParam lParam w,
  ~ In (LOWORD wParam) menu_ids ->
  WndProc WM_COMMAND wParam lParam w = w.
Proof.
  intros wParam lParam w Hout. unfold WndProc.
  change (WM_COMMAND =? WM_HOTKEY) with false.
  change (WM_COMMAND =? WM_COMMAND) with true. cbv iota zeta.
  unfold menu_ids in Hout. simpl in Hout.
  repeat match goal with
         | |- context [LOWORD wParam =? ?id] =>
             destruct (N.eqb_spec (LOWORD wParam) id) as [E|_];
               [exfalso; apply Hout; rewrite E; simpl; tauto|]
         end.
  reflexivity.
Qed.

Lemma WM_COMMAND_outside_menu_ignored_witness :
  WndProc WM_COMMAND ID_CHANGE_HOTKEY 0 stored_world = stored_world.
Proof.
  apply (WM_COMMAND_outside_menu_ignored ID_CHANGE_HOTKEY 0 stored_world).
  intros H. simpl in H.
  repeat (destruct H as [H|H]; [discriminate|]). exact H.
Defined.

(** X17: every entry of the popup menu has its handler: when the list
    file can be opened for output, the command of each menu entry makes
    the program do something that shows in its trace. *)
Theorem menu_commands_are_handled : forall id lParam w,
  In id menu_ids ->
  can_write w = true ->
  exists e evs, trace (WndProc WM_COMMAND id lParam w) = trace w ++ e :: evs.
Proof.
  intros id lParam w Hin Hw. unfold menu_ids in Hin. simpl in Hin.
  destruct Hin as [<-|[<-|[<-|[<-|[<-|[]]]]]].
  - change (WndProc WM_COMMAND ID_DOWNLOAD lParam w) with (DownloadAll w).
    rewrite DownloadAll_trace. unfold clear_events. rewrite Hw.
    destruct (map download_command (ReadList w)) as [|e evs].
    + now exists FileTruncated, [].
    + now exists e, (evs ++ [FileTruncated]).
  - eexists _, []. reflexivity.
  - eexists _, []. reflexivity.
  - eexists _, []. reflexivity.
  - eexists _, []. reflexivity.
Qed.

Lemma menu_commands_are_handled_witness :
  exists e evs,
    trace (WndProc WM_COMMAND ID_INFO 0 stored_world) = trace stored_world ++ e :: evs.
Proof.
  apply (menu_commands_are_handled ID_INFO 0 stored_world).
  - right. right. right. left. reflexivity.
  - reflexivity.
Defined.

(** ** Sessions *)

Section Sessions.

Implicit Types (w : World) (text : wstring).

Lemma run_app (a b : list Input) : forall w,
  run (a ++ b) w = run b (run a w).
Proof.
  induction a as [|i rest IH]; intros w; simpl; [reflexivity|apply IH].
Qed.

Lemma WndProc_terminated msg wParam lParam w :
  clipboard_convertible (clipboard w) = true ->
  terminated (file_content w) = true ->
  terminated (file_content (WndProc msg wParam lParam w)) = true.
Proof.
  intros Hcv Ht. unfold WndProc.
  repeat match goal with
         | |- context [if ?b then _ else _] => destruct b
         end;
    auto using AddLinkFromClipboard_terminated, DownloadAll_terminated.
Qed.

Lemma step_keeps_order (i : Input) w :
  input_convertible i = true ->
  clipboard_convertible (clipboard w) = true ->
  terminated (file_content w) = true ->
  clipboard_convertible (clipboard (step i w)) = true /\
  terminated (file_content (step i w)) = true.
Proof.
  intros Hi Hcv Ht. destruct i as [c|m]; simpl in *.
  - split; assumption.
  - split; [|now apply WndProc_terminated].
    destruct (WndProc_environment (msg_id m) (msg_wParam m) (msg_lParam m) w)
      as (Hc & _).
    now rewrite Hc.
Qed.

Lemma plain_entry_inv text :
  plain_entry text = true ->
  text <> [] /\ no_newline text = true /\ no_NUL text = true /\
  convertible text = true.
Proof.
  unfold plain_entry. intros H.
  apply andb_true_iff in H as [H Hcv].
  apply andb_true_iff in H as [H Hnul].
  apply andb_true_iff in H as [Hne Hnn].
  repeat split; try assumption. intros ->. discriminate.
Qed.

Lemma clipboard_text_of w text :
  no_NUL text = true ->
  clipboard_text (set_clipboard w (clipboard_of text)) = Some text.
Proof.
  intros H. unfold clipboard_text, set_clipboard, clipboard_of. simpl.
  now rewrite wstring_of_cstr_app_NUL.
Qed.

(** One copy and add of a plain entry into a list file in good order. *)
Lemma copy_and_add_entry text w :
  plain_entry text = true ->
  can_read w = true -> can_write w = true ->
  terminated (file_content w) = true ->
  can_read (run (copy_and_add text) w) = true /\
  can_write (run (copy_and_add text) w) = true /\
  terminated (file_content (run (copy_and_add text) w)) = true /\
  ReadList (run (copy_and_add text) w) = ReadList w ++ [text] /\
  trace (run (copy_and_add text) w)
  = trace w ++ [FileAppended (text ++ [newline])].
Proof.
  intros Hp Hr Hw Ht.
  destruct (plain_entry_inv _ Hp) as (Hne & Hnn & Hnul & Hcv).
  pose proof (clipboard_text_of w text Hnul) as Hc.
  change (run (copy_and_add text) w)
    with (AddLinkFromClipboard (set_clipboard w (clipboard_of text))).
  set (w1 := set_clipboard w (clipboard_of text)) in *.
  assert (Hr1 : can_read w1 = true) by exact Hr.
  assert (Hw1 : can_write w1 = true) by exact Hw.
  assert (Ht1 : terminated (file_content w1) = true) by exact Ht.
  assert (Hcv1 : clipboard_convertible (clipboard w1) = true).
  { unfold clipboard_text in Hc. unfold clipboard_convertible.
    destruct (clipboard w1); try discriminate. now injection Hc as ->. }
  destruct (AddLinkFromClipboard_environment w1) as (_ & Hr2 & Hw2 & _).
  split; [congruence|]. split; [congruence|].
  split; [now apply AddLinkFromClipboard_terminated|].
  split.
  - rewrite (ReadList_AddLinkFromClipboard _ _ Hc Hne Hw1 Hr1 Ht1 Hcv).
    now rewrite nonempty_lines_single.
  - now rewrite (AddLinkFromClipboard_appends _ _ Hc Hne Hw1 Hcv).
Qed.

Lemma copy_and_add_entries (texts : list wstring) : forall w,
  Forall (fun text => plain_entry text = true) texts ->
  can_read w = true -> can_write w = true ->
  terminated (file_content w) = true ->
  can_write (run (flat_map copy_and_add texts) w) = true /\
  ReadList (run (flat_map copy_and_add texts) w) = ReadList w ++ texts /\
  trace (run (flat_map copy_and_add texts) w)
  = trace w ++ map (fun text => FileAppended (text ++ [newline])) texts.
Proof.
  induction texts as [|text rest IH]; intros w Hall Hr Hw Ht.
  - simpl. now rewrite !app_nil_r.
  - inversion Hall as [|? ? Hp Hrest]; subst.
    destruct (copy_and_add_entry text w Hp Hr Hw Ht)
      as (Hr1 & Hw1 & Ht1 & Hl1 & Htr1).
    change (flat_map copy_and_add (text :: rest))
      with (copy_and_add text ++ flat_map copy_and_add rest).
    rewrite run_app.
    destruct (IH _ Hrest Hr1 Hw1 Ht1) as (Hw2 & Hl2 & Htr2).
    split; [exact Hw2|]. split.
    + rewrite Hl2, Hl1, <- app_assoc. reflexivity.
    + rewrite Htr2, Htr1, <- app_assoc. reflexivity.
Qed.

End Sessions.

(** X18: while every text that is on the clipboard can be written
    (characters below 256), the program leaves no line of the list file
    without its newline: in every such session of clipboard changes and
    messages, a list file that is missing, empty or ends with a newline at
    the start is still so at the end. *)
Theorem session_keeps_lines_terminated : forall inputs w,
  clipboard_convertible (clipboard w) = true ->
  forallb input_convertible inputs = true ->
  terminated (file_content w) = true ->
  terminated (file_content (run inputs w)) = true.
Proof.
  induction inputs as [|i rest IH]; intros w Hcv Hall Ht; simpl; [exact Ht|].
  simpl in Hall. apply andb_true_iff in Hall as [Hi Hall].
  destruct (step_keeps_order i w Hi Hcv Ht) as [Hcv' Ht'].
  now apply IH.
Qed.

Lemma session_keeps_lines_terminated_witness :
  terminated
    (file_content
       (run (copy_and_add two_line_text ++ copy_and_add (L "c") ++ press_download
             ++ copy_and_add (L "d"))
            (world_with_file None))) = true.
Proof.
  apply (session_keeps_lines_terminated
           (copy_and_add two_line_text ++ copy_and_add (L "c") ++ press_download
            ++ copy_and_add (L "d"))
           (world_with_file None)).
  - reflexivity.
  - reflexivity.
  - reflexivity.
Defined.

(** X19: copying one URL after the other and pressing the add hotkey after
    each, then pressing the download hotkey, starts the downloader once for
    every URL the list held before and once for every URL added, in the
    order in which they were added, and then clears the list; this holds
    when the list file can be opened for input and output, its prior
    content is empty or ends with a newline, and every added text is
    non-empty, has neither a newline nor a NUL and is made of characters
    that can be written (below 256). *)
Theorem add_each_then_download : forall texts w,
  Forall (fun text => plain_entry text = true) texts ->
  can_read w = true ->
  can_write w = true ->
  terminated (file_content w) = true ->
  ReadList (run (flat_map copy_and_add texts) w) = ReadList w ++ texts /\
  trace (run (flat_map copy_and_add texts ++ press_download) w)
  = trace w
    ++ map (fun text => FileAppended (text ++ [newline])) texts
    ++ map download_command (ReadList w ++ texts)
    ++ [FileTruncated] /\
  ReadList (run (flat_map copy_and_add texts ++ press_download) w) = [].
Proof.
  intros texts w Hall Hr Hw Ht.
  destruct (copy_and_add_entries texts w Hall Hr Hw Ht) as (Hw1 & Hl & Htr).
  split; [exact Hl|].
  rewrite run_app.
  change (run press_download (run (flat_map copy_and_add texts) w))
    with (DownloadAll (run (flat_map copy_and_add texts) w)).
  split.
  - rewrite DownloadAll_trace, Htr, Hl. unfold clear_events. rewrite Hw1.
    now rewrite <- app_assoc.
  - unfold ReadList, wifstream_open. rewrite DownloadAll_list_file, Hw1.
    destruct (can_read (DownloadAll _)); reflexivity.
Qed.

Lemma add_each_then_download_witness :
  ReadList (run (flat_map copy_and_add [L "u"; L "v"; L "u"]) stored_world)
  = ReadList stored_world ++ [L "u"; L "v"; L "u"] /\
  trace (run (flat_map copy_and_add [L "u"; L "v"; L "u"] ++ press_download) stored_world)
  = trace stored_world
    ++ map (fun text => FileAppended (text ++ [newline])) [L "u"; L "v"; L "u"]
    ++ map download_command (ReadList stored_world ++ [L "u"; L "v"; L "u"])
    ++ [FileTruncated] /\
  ReadList (run (flat_map copy_and_add [L "u"; L "v"; L "u"] ++ press_download) stored_world)
  = [].
Proof.
  apply (add_each_then_download [L "u"; L "v"; L "u"] stored_world).
  - repeat constructor.
  - reflexivity.
  - reflexivity.
  - reflexivity.
Defined.

(** ** The command line of a download *)

Lemma c_str_cut (s rest : wstring) :
  no_NUL s = true -> c_str (s ++ NUL :: rest) = s.
Proof.
  intros H. unfold c_str. rewrite <- app_assoc. simpl.
  now apply wstring_of_cstr_app_NUL.
Qed.

(** X20: [RunDownload] hands the command line to [ShellExecuteW] as a C
    string, so that a stored line is passed to the downloader only up to
    its first NUL: the line [url], NUL, [rest] starts the same download as
    the line [url]. *)
Theorem RunDownload_stops_at_first_NUL : forall url rest w,
  no_NUL url = true ->
  RunDownload (url ++ NUL :: rest) w = RunDownload url w /\
  download_command (url ++ NUL :: rest)
  = ShellExecute (L "cmd.exe") (Some (L "/c yt-dlp " ++ url)) SW_HIDE.
Proof.
  intros url rest w Hnul.
  assert (Hcut : c_str (L "/c " ++ L "yt-dlp " ++ url ++ NUL :: rest)
                 = L "/c yt-dlp " ++ url).
  { change (L "/c " ++ L "yt-dlp " ++ url ++ NUL :: rest)
      with ((L "/c yt-dlp " ++ url) ++ NUL :: rest).
    apply c_str_cut. now rewrite no_NUL_app, Hnul. }
  assert (Hwhole : c_str (L "/c " ++ L "yt-dlp " ++ url) = L "/c yt-dlp " ++ url).
  { change (L "/c " ++ L "yt-dlp " ++ url) with (L "/c yt-dlp " ++ url).
    apply c_str_no_NUL. now rewrite no_NUL_app, Hnul. }
  unfold RunDownload, download_command. cbv zeta.
  now rewrite Hcut, Hwhole.
Qed.

Lemma RunDownload_stops_at_first_NUL_witness :
  RunDownload (L "u" ++ NUL :: L "v") stored_world = RunDownload (L "u") stored_world /\
  download_command (L "u" ++ NUL :: L "v")
  = ShellExecute (L "cmd.exe") (Some (L "/c yt-dlp " ++ L "u")) SW_HIDE.
Proof.
  apply (RunDownload_stops_at_first_NUL (L "u") (L "v") stored_world).
  reflexivity.
Defined.
